(** * Company network builder and analyzer: a shallow embedding

    Source: [scripts/analysis/meilisearch-company-network.py].

    The script posts one search request, folds the returned company
    records into a network (companies, partners, connections) and ranks
    the result.  The records are untyped JSON, so the embedding keeps
    Python's dynamic behaviour: values are JSON trees, every operation
    that can raise in Python returns a [result], dictionaries keep their
    insertion order, and the loops run in a state monad that also
    records every state the network goes through. *)

From Stdlib Require Import ZArith QArith List String Ascii Bool Lia Sorted Permutation.
Import ListNotations.
Local Open Scope string_scope.
Local Open Scope Z_scope.

Set Implicit Arguments.
Set Warnings "-register-all".

(** ** Values decoded from JSON

    A number without fraction and exponent decodes to a Python [int]
    (unbounded), any other number to a [float].  A character of a
    [string] stands for one character of a Python [str]. *)

(** A [float] is a double: a sign, a mantissa and an exponent, for
    the number [(-1)^negative * m * 2^e]; or an infinity; or a NaN.
    Every double has this form.  The bounds of mantissa and exponent
    are left out: the script does no arithmetic on floats, it tests,
    compares, hashes and prints them.  A NaN is equal to nothing,
    itself included, and a [dict] or [set] finds one again only as the
    same object, so a NaN carries the identity of its object (which
    NaNs of a body are one object is the decoder's affair). *)
Inductive pyfloat : Type :=
| Finite (negative : bool) (m : N) (e : Z)
| Infinite (negative : bool)
| NaN (object : N).

Inductive json : Type :=
| JNull
| JBool (b : bool)
| JNum (n : Z)
| JFloat (f : pyfloat)
| JStr (s : string)
| JArr (l : list json)
| JObj (m : list (string * json)).

(** ** Exceptions and fallible results *)

Inductive exn : Type :=
| KeyError
| IndexError
| TypeError
| AttributeError
| ValueError
| OverflowError
| JSONDecodeError
| ConnectionError.

Inductive result (A : Type) : Type :=
| Ok (a : A)
| Raise (e : exn).

Arguments Ok {A} a.
Arguments Raise {A} e.

Definition rbind {A B} (r : result A) (f : A -> result B) : result B :=
  match r with
  | Ok a => f a
  | Raise e => Raise e
  end.

Declare Scope result_scope.
Delimit Scope result_scope with result.
Notation "x <- r ;; k" := (rbind r (fun x => k))
  (at level 61, r at next level, right associativity) : result_scope.

(** ** Python operations on decoded values *)

Module Py.

(** Lookup in a decoded object (a [dict] with string keys). *)
Fixpoint lookup (k : string) (m : list (string * json)) : option json :=
  match m with
  | [] => None
  | (k', v) :: m' => if String.eqb k k' then Some v else lookup k m'
  end.

(** [d[k]] for a string [k]. *)
Definition getitem (d : json) (k : string) : result json :=
  match d with
  | JObj m => match lookup k m with
              | Some v => Ok v
              | None => Raise KeyError
              end
  | _ => Raise TypeError
  end.

(** [d.get(k, dflt)]; only a [dict] has the method. *)
Definition get (d : json) (k : string) (dflt : json) : result json :=
  match d with
  | JObj m => match lookup k m with
              | Some v => Ok v
              | None => Ok dflt
              end
  | _ => Raise AttributeError
  end.

(** [len(v)]. *)
Definition len (v : json) : result nat :=
  match v with
  | JStr s => Ok (String.length s)
  | JArr l => Ok (List.length l)
  | JObj m => Ok (List.length m)
  | _ => Raise TypeError
  end.

(** The elements [for x in v] visits: the items of a list, the
    characters of a string, the keys of a dict. *)
Definition iter (v : json) : result (list json) :=
  match v with
  | JArr l => Ok l
  | JStr s => Ok (map (fun c => JStr (String c EmptyString)) (list_ascii_of_string s))
  | JObj m => Ok (map (fun kv => JStr (fst kv)) m)
  | _ => Raise TypeError
  end.

(** Truth value, as tested by [not v], [v or w] and [x if v else y]. *)
Definition truthy (v : json) : bool :=
  match v with
  | JNull => false
  | JBool b => b
  | JNum n => negb (n =? 0)
  | JFloat (Finite _ m _) => negb (m =? 0)%N
  | JFloat _ => true
  | JStr s => negb (String.eqb s "")
  | JArr l => match l with [] => false | _ => true end
  | JObj m => match m with [] => false | _ => true end
  end.

(** [v[0]]. *)
Definition index0 (v : json) : result json :=
  match v with
  | JArr (x :: _) => Ok x
  | JArr [] => Raise IndexError
  | JStr (String c _) => Ok (JStr (String c EmptyString))
  | JStr EmptyString => Raise IndexError
  | JObj _ => Raise KeyError
  | _ => Raise TypeError
  end.

End Py.

(** ** Hashable keys

    A [dict] or [set] key is compared by hash and equality: [True],
    [1] and [1.0] are the same key, lists and dicts are unhashable.
    A key [KFloat f] holds a float that is no integer, in the one form
    with an odd mantissa, an infinity or a NaN; a float that is an
    integer is the key of that integer. *)

Inductive key : Type :=
| KNone
| KNum (n : Z)
| KFloat (f : pyfloat)
| KStr (s : string).

(** [p] as an odd number times a power of two. *)
Fixpoint odd_part (p : positive) : positive * Z :=
  match p with
  | xO q => let (r, t) := odd_part q in (r, Z.succ t)
  | _ => (p, 0)
  end.

Definition signed (negative : bool) (n : Z) : Z :=
  if negative then - n else n.

Definition float_key (f : pyfloat) : key :=
  match f with
  | Finite s (Npos p) e =>
      let (r, t) := odd_part p in
      if 0 <=? e + t then KNum (signed s (Zpos r * 2 ^ (e + t)))
      else KFloat (Finite s (Npos r) (e + t))
  | Finite _ N0 _ => KNum 0
  | Infinite _ | NaN _ => KFloat f
  end.

Definition py_key (v : json) : result key :=
  match v with
  | JNull => Ok KNone
  | JBool b => Ok (KNum (Z.b2z b))
  | JNum n => Ok (KNum n)
  | JFloat f => Ok (float_key f)
  | JStr s => Ok (KStr s)
  | JArr _ | JObj _ => Raise TypeError
  end.

Definition pyfloat_eqb (f g : pyfloat) : bool :=
  match f, g with
  | Finite s m e, Finite s' m' e' => Bool.eqb s s' && (m =? m')%N && (e =? e')
  | Infinite s, Infinite s' => Bool.eqb s s'
  | NaN o, NaN o' => (o =? o')%N
  | _, _ => false
  end.

Definition key_eqb (a b : key) : bool :=
  match a, b with
  | KNone, KNone => true
  | KNum n, KNum m => n =? m
  | KFloat f, KFloat g => pyfloat_eqb f g
  | KStr s, KStr t => String.eqb s t
  | _, _ => false
  end.

(** ** The search collaborator

    [requests.post(url, headers=headers, json=payload)]: the url and
    the headers are constants of the script, so a collaborator is a
    function of the payload.  It raises when the host is unreachable;
    otherwise it answers with a status code and a body, and
    [json_body] is what [response.json()] evaluates to. *)

Record response : Type := {
  status_code : Z;
  json_body : result json
}.

Definition collaborator : Type := json -> result response.

Section Search.

Variable post : collaborator.

Definition search_companies (query : string) (limit : Z) : result json :=
  (response <- post (JObj [("q", JStr query); ("limit", JNum limit)]) ;;
   if status_code response =? 200 then
     body <- json_body response ;;
     Py.get body "hits" (JArr [])
   else Ok (JArr []))%result.

Definition get_company_by_cnpj (cnpj : string) : result json :=
  (response <- post (JObj [("filter", JStr ("cnpj = " ++ cnpj)); ("limit", JNum 1)]) ;;
   if status_code response =? 200 then
     body <- json_body response ;;
     hits <- Py.get body "hits" (JArr []) ;;
     if Py.truthy hits then Py.index0 hits else Ok JNull
   else Ok JNull)%result.

Definition find_companies_by_cpf (cpf : string) (limit : Z) : result json :=
  (response <- post (JObj [("q", JStr cpf); ("limit", JNum limit);
                           ("attributesToSearchOn", JArr [JStr "socios_cpfs"])]) ;;
   if status_code response =? 200 then
     body <- json_body response ;;
     Py.get body "hits" (JArr [])
   else Ok (JArr []))%result.

End Search.

(** ** Dictionaries in insertion order

    A Python [dict] iterates in insertion order, and assigning to a key
    that is present keeps its position; [items()] is the list itself. *)

Definition dict (V : Type) : Type := list (key * V).

Fixpoint dict_get {V} (k : key) (d : dict V) : option V :=
  match d with
  | [] => None
  | (k', v) :: d' => if key_eqb k k' then Some v else dict_get k d'
  end.

Definition dict_mem {V} (k : key) (d : dict V) : bool :=
  match dict_get k d with
  | Some _ => true
  | None => false
  end.

Fixpoint dict_set {V} (k : key) (v : V) (d : dict V) : dict V :=
  match d with
  | [] => [(k, v)]
  | (k', v') :: d' =>
      if key_eqb k k' then (k', v) :: d' else (k', v') :: dict_set k v d'
  end.

(** A [set] of keys, used only through [in] and [add]. *)
Definition set_mem (k : key) (s : list key) : bool := existsb (key_eqb k) s.

Definition set_add (k : key) (s : list key) : list key :=
  if set_mem k s then s else s ++ [k].

(** ** The network *)

Record company_entry : Type := {
  c_cnpj : json;
  c_razao_social : json;
  c_nome_fantasia : json;
  c_capital_social : json;
  c_uf : json;
  c_situacao : json;
  c_socios_count : nat
}.

Record socio_entry : Type := {
  s_cpf : json;
  s_nome : json;
  s_companies : list json
}.

Record connection : Type := {
  k_cnpj : json;
  k_cpf : json;
  k_qualificacao : json;
  k_data_entrada : json;
  k_percentual : json
}.

Record network : Type := {
  companies : dict company_entry;
  socios : dict socio_entry;
  connections : list connection
}.

Definition empty_network : network :=
  {| companies := []; socios := []; connections := [] |}.

(** The mutable variables of [build_network].  ([processed_cpfs] is
    created by the source and never read or written.) *)
Record state : Type := {
  net : network;
  processed_cnpjs : list key
}.

Definition init_state : state :=
  {| net := empty_network; processed_cnpjs := [] |}.

(** ** The build monad: state, exceptions, and the history of states

    [cur] is the current state; [past] holds the states the build has
    gone through, most recent first.  Every mutation of the source is
    one [modify], which pushes the state it replaces. *)

Record world : Type := {
  cur : state;
  past : list state
}.

Definition init_world : world := {| cur := init_state; past := [] |}.

(** All states so far, most recent first. *)
Definition history (w : world) : list state := cur w :: past w.

Definition push (g : state -> state) (w : world) : world :=
  {| cur := g (cur w); past := cur w :: past w |}.

Definition M (A : Type) : Type := world -> result A * world.

Definition ret {A} (a : A) : M A := fun w => (Ok a, w).

Definition bind {A B} (m : M A) (f : A -> M B) : M B :=
  fun w => match m w with
           | (Ok a, w') => f a w'
           | (Raise e, w') => (Raise e, w')
           end.

Definition lift {A} (r : result A) : M A := fun w => (r, w).

Definition raise {A} (e : exn) : M A := fun w => (Raise e, w).

Definition get_state : M state := fun w => (Ok (cur w), w).

Definition modify (g : state -> state) : M unit := fun w => (Ok tt, push g w).

Declare Scope build_scope.
Delimit Scope build_scope with build.
Notation "x <- m ;; k" := (bind m (fun x => k))
  (at level 61, m at next level, right associativity) : build_scope.
Notation "m ;; k" := (bind m (fun _ => k))
  (at level 61, right associativity) : build_scope.

(** [for x in l: body(x)]. *)
Fixpoint for_each {A} (l : list A) (body : A -> M unit) : M unit :=
  match l with
  | [] => ret tt
  | x :: l' => (body x ;; for_each l' body)%build
  end.

(** ** The mutations of [build_network] *)

(** [processed_cnpjs.add(cnpj)] *)
Definition add_processed (k : key) (st : state) : state :=
  {| net := net st; processed_cnpjs := set_add k (processed_cnpjs st) |}.

(** [network["companies"][cnpj] = entry] *)
Definition set_company (k : key) (e : company_entry) (st : state) : state :=
  {| net := {| companies := dict_set k e (companies (net st));
               socios := socios (net st);
               connections := connections (net st) |};
     processed_cnpjs := processed_cnpjs st |}.

(** [network["socios"][cpf] = entry]; also the write-back of the entry
    whose [companies] list has been appended to. *)
Definition set_socio (k : key) (p : socio_entry) (st : state) : state :=
  {| net := {| companies := companies (net st);
               socios := dict_set k p (socios (net st));
               connections := connections (net st) |};
     processed_cnpjs := processed_cnpjs st |}.

(** [network["connections"].append(c)] *)
Definition append_connection (c : connection) (st : state) : state :=
  {| net := {| companies := companies (net st);
               socios := socios (net st);
               connections := connections (net st) ++ [c] |};
     processed_cnpjs := processed_cnpjs st |}.

Definition append_company (cnpj : json) (p : socio_entry) : socio_entry :=
  {| s_cpf := s_cpf p; s_nome := s_nome p; s_companies := s_companies p ++ [cnpj] |}.

(** ** [build_network] *)

(** The body of the inner loop (source lines 106-128), for the company
    identifier [cnpj] and one element [socio] of the ownership list. *)
Definition process_socio (cnpj : json) (socio : json) : M unit :=
  (cpf <- lift (Py.get socio "cpf" JNull) ;;
   if negb (Py.truthy cpf) then ret tt else
   kcpf <- lift (py_key cpf) ;;
   st <- get_state ;;
   (if negb (dict_mem kcpf (socios (net st))) then
      nome <- lift (Py.get socio "nome" JNull) ;;
      modify (set_socio kcpf {| s_cpf := cpf; s_nome := nome; s_companies := [] |})
    else ret tt) ;;
   qualificacao <- lift (Py.get socio "qualificacao" JNull) ;;
   data_entrada <- lift (Py.get socio "data_entrada" JNull) ;;
   percentual <- lift (Py.get socio "percentual" JNull) ;;
   modify (append_connection {| k_cnpj := cnpj; k_cpf := cpf;
                                k_qualificacao := qualificacao;
                                k_data_entrada := data_entrada;
                                k_percentual := percentual |}) ;;
   st' <- get_state ;;
   match dict_get kcpf (socios (net st')) with
   | None => raise KeyError
   | Some p => modify (set_socio kcpf (append_company cnpj p))
   end)%build.

(** The body of the outer loop (source lines 86-128). *)
Definition process_company (company : json) : M unit :=
  (cnpj <- lift (Py.getitem company "cnpj") ;;
   kcnpj <- lift (py_key cnpj) ;;
   st <- get_state ;;
   if set_mem kcnpj (processed_cnpjs st) then ret tt else
   modify (add_processed kcnpj) ;;
   razao_social <- lift (Py.getitem company "razao_social") ;;
   nome_fantasia <- lift (Py.get company "nome_fantasia" JNull) ;;
   capital_social <- lift (Py.get company "capital_social" (JNum 0)) ;;
   uf <- lift (Py.get company "uf" JNull) ;;
   situacao <- lift (Py.get company "situacao_cadastral" JNull) ;;
   socios_count <- lift (s <- Py.get company "socios" (JArr []) ;; Py.len s)%result ;;
   modify (set_company kcnpj {| c_cnpj := cnpj;
                                c_razao_social := razao_social;
                                c_nome_fantasia := nome_fantasia;
                                c_capital_social := capital_social;
                                c_uf := uf;
                                c_situacao := situacao;
                                c_socios_count := socios_count |}) ;;
   l <- lift (s <- Py.get company "socios" (JArr []) ;; Py.iter s)%result ;;
   for_each l (process_socio cnpj))%build.

(** [build_network(seed_query, max_depth)].  The two [print] calls
    write to the console only; the first evaluates
    [len(initial_companies)], which can raise. *)
Definition build_network (post : collaborator) (seed_query : string) (max_depth : Z)
  : M network :=
  (initial_companies <- lift (search_companies post seed_query 10) ;;
   _ <- lift (Py.len initial_companies) ;;
   l <- lift (Py.iter initial_companies) ;;
   for_each l process_company ;;
   st <- get_state ;;
   ret (net st))%build.

(** The value [build_network] returns, and the states it went
    through, oldest first. *)
Definition build (post : collaborator) (seed_query : string) (max_depth : Z)
  : result network :=
  fst (build_network post seed_query max_depth init_world).

Definition build_trace (post : collaborator) (seed_query : string) (max_depth : Z)
  : list state :=
  rev (history (snd (build_network post seed_query max_depth init_world))).

(** ** [analyze_network] *)

(** A stable descending sort for keys that [ltb] orders: the keys go
    down, and items with equal keys keep the order they had in [l].
    This is [sorted(l, key=f, reverse=True)] where Python's [<] on the
    keys is [ltb] (Python's sort is stable, also under
    [reverse=True]). *)
Section SortedDesc.

Variables A K : Type.
Variable ltb : K -> K -> bool.
Variable f : A -> K.

Fixpoint insert_desc (x : A) (l : list A) : list A :=
  match l with
  | [] => [x]
  | y :: l' => if ltb (f x) (f y) then y :: insert_desc x l' else x :: y :: l'
  end.

Fixpoint sorted_desc (l : list A) : list A :=
  match l with
  | [] => []
  | x :: l' => insert_desc x (sorted_desc l')
  end.

End SortedDesc.

(** *** Numbers under [<]

    Python compares an [int], a [bool] and a [float] by their exact
    values, whatever the mix; an infinity is beyond every other
    number.  A NaN is no number: every comparison with it is false. *)
Inductive number : Type :=
| MinusInfinity
| Rational (q : Q)
| PlusInfinity.

(** The number [(-1)^negative * m * 2^e]. *)
Definition dyadic (negative : bool) (m : N) (e : Z) : Q :=
  if 0 <=? e then inject_Z (signed negative (Z.of_N m) * 2 ^ e)
  else Qmake (signed negative (Z.of_N m)) (2 ^ Z.to_pos (- e)).

Definition number_of (v : json) : option number :=
  match v with
  | JBool b => Some (Rational (inject_Z (Z.b2z b)))
  | JNum n => Some (Rational (inject_Z n))
  | JFloat (Finite s m e) => Some (Rational (dyadic s m e))
  | JFloat (Infinite s) => Some (if s then MinusInfinity else PlusInfinity)
  | _ => None
  end.

(** [a < b] on numbers. *)
Definition number_ltb (a b : number) : bool :=
  match a, b with
  | _, MinusInfinity => false
  | MinusInfinity, _ => true
  | PlusInfinity, _ => false
  | _, PlusInfinity => true
  | Rational p, Rational q => negb (Qle_bool q p)
  end.

(** *** [sorted] on keys of any kind

    [<] orders numbers among themselves and strings among themselves
    (by code point).  It raises [TypeError] between a number and a
    string, and on a [dict] or [None] whatever the other side.  Two
    keys suffice for one comparison, and a sort compares every item
    with at least one other. *)
Definition is_number (v : json) : bool :=
  match number_of v with Some _ => true | None => false end.

Definition is_nan (v : json) : bool :=
  match v with JFloat (NaN _) => true | _ => false end.

Definition is_text (v : json) : bool :=
  match v with JStr _ => true | _ => false end.

Definition is_sequence (v : json) : bool :=
  match v with JArr _ => true | _ => false end.

Definition number_key (v : json) : number :=
  match number_of v with Some x => x | None => Rational 0 end.

Definition text_key (v : json) : string :=
  match v with JStr s => s | _ => "" end.

(** What the model says of a call: its result, or nothing.  The
    outcome of a call is [Unspecified] where the language does not
    settle it: a sort whose keys [<] does not order totally (a NaN
    among numbers) leaves the items in an order that depends on the
    algorithm of the interpreter, and whether a sort of lists raises
    depends on the pairs that algorithm compares. *)
Inductive behaviour (A : Type) : Type :=
| Determined (r : result A)
| Unspecified.

Arguments Unspecified {A}.

Coercion Determined : result >-> behaviour.

Definition bbind {A B} (b : behaviour A) (f : A -> behaviour B) : behaviour B :=
  match b with
  | Determined (Ok a) => f a
  | Determined (Raise e) => Raise e
  | Unspecified => Unspecified
  end.

Declare Scope behaviour_scope.
Delimit Scope behaviour_scope with behaviour.
Notation "x <- b ;; k" := (bbind b (fun x => k))
  (at level 61, b at next level, right associativity) : behaviour_scope.

Section Sorted.

Variable A : Type.
Variable key : A -> json.

(** [sorted(l, key=key, reverse=True)].  Without two items nothing
    is compared. *)
Definition sorted_reverse (l : list A) : behaviour (list A) :=
  match l with
  | [] | [_] => Ok l
  | _ =>
      if forallb (fun x => is_number (key x)) l then
        Ok (sorted_desc number_ltb (fun x => number_key (key x)) l)
      else if forallb (fun x => is_text (key x)) l then
        Ok (sorted_desc String.ltb (fun x => text_key (key x)) l)
      else if forallb (fun x => is_number (key x) || is_nan (key x)) l
              || forallb (fun x => is_sequence (key x)) l then
        Unspecified
      else Raise TypeError
  end.

End Sorted.

(** The sort key of the third ranking, [capital_social or 0]. *)
Definition capital_or_0 (v : json) : json :=
  if Py.truthy v then v else JNum 0.

Fixpoint all_ok {A B} (f : A -> result B) (l : list A) : result unit :=
  match l with
  | [] => Ok tt
  | x :: l' => (_ <- f x ;; all_ok f l')%result
  end.

(** [f"{v[:n]:n}"]: slicing and padding need a string.  [None],
    numbers and booleans are not subscriptable, and a list does not
    accept the width as format. *)
Definition slice_pad (v : json) : result unit :=
  match v with
  | JStr _ => Ok tt
  | _ => Raise TypeError
  end.

(** [float(n)] for an [int]: the nearest double, and [OverflowError]
    when that is beyond the largest one. *)
Definition float_of_int (n : Z) : result unit :=
  if Z.abs n <? 2 ^ 1024 - 2 ^ 970 then Ok tt else Raise OverflowError.

(** [f"{capital:,.2f}"] for [capital = capital_social or 0]: an
    [int] or [bool] is converted to [float] first, a [float] is
    printed whatever it is, a string does not know the format code,
    and a list or dict accepts no format at all. *)
Definition format_capital (v : json) : result unit :=
  match capital_or_0 v with
  | JNum n => float_of_int n
  | JBool _ | JFloat _ => Ok tt
  | JStr _ => Raise ValueError
  | JNull | JArr _ | JObj _ => Raise TypeError
  end.

Definition socios_key (x : key * socio_entry) : Z :=
  Z.of_nat (List.length (s_companies (snd x))).

Definition socios_count_key (x : key * company_entry) : Z :=
  Z.of_nat (c_socios_count (snd x)).

Definition capital_key (x : key * company_entry) : json :=
  capital_or_0 (c_capital_social (snd x)).

Definition rank_socios_by_companies (n : network) : list (key * socio_entry) :=
  firstn 10 (sorted_desc Z.ltb socios_key (socios n)).

Definition rank_companies_by_socios (n : network) : list (key * company_entry) :=
  firstn 10 (sorted_desc Z.ltb socios_count_key (companies n)).

Definition rank_companies_by_capital (n : network)
  : behaviour (list (key * company_entry)) :=
  (l <- sorted_reverse capital_key (companies n) ;; Ok (firstn 10 l))%behaviour.

Record analysis : Type := {
  socios_by_companies : list (key * socio_entry);
  companies_by_socios : list (key * company_entry);
  companies_by_capital : list (key * company_entry)
}.

(** [analyze_network(network)]: three rankings, each followed by the
    loop that prints its rows. *)
Definition analyze_network (n : network) : behaviour analysis :=
  (let socios_by_companies := rank_socios_by_companies n in
   _ <- all_ok (fun x => slice_pad (s_nome (snd x))) socios_by_companies ;;
   let companies_by_socios := rank_companies_by_socios n in
   _ <- all_ok (fun x => slice_pad (c_razao_social (snd x))) companies_by_socios ;;
   companies_by_capital <- rank_companies_by_capital n ;;
   _ <- all_ok (fun x => (_ <- slice_pad (c_razao_social (snd x)) ;;
                          format_capital (c_capital_social (snd x)))%result)
               companies_by_capital ;;
   Ok {| socios_by_companies := socios_by_companies;
         companies_by_socios := companies_by_socios;
         companies_by_capital := companies_by_capital |})%behaviour.

(** ** Worked inputs *)

Module Scenario.

Definition answer (hits : list json) : collaborator :=
  fun _ => Ok {| status_code := 200; json_body := Ok (JObj [("hits", JArr hits)]) |}.

Definition socio (cpf nome : string) : json :=
  JObj [("cpf", JStr cpf); ("nome", JStr nome)].

(** One company with the same partner listed twice and one entry
    without identifier. *)
Definition acme : json :=
  JObj [("cnpj", JStr "A"); ("razao_social", JStr "Acme"); ("capital_social", JNum 1000);
        ("socios", JArr [socio "P1" "Jo"; socio "P1" "Jo"; socio "" "Anon"])].

Definition jo : socio_entry :=
  {| s_cpf := JStr "P1"; s_nome := JStr "Jo"; s_companies := [JStr "A"; JStr "A"] |}.

Definition jo_in_acme : connection :=
  {| k_cnpj := JStr "A"; k_cpf := JStr "P1"; k_qualificacao := JNull;
     k_data_entrada := JNull; k_percentual := JNull |}.

(** What the build makes of [acme]. *)
Definition acme_network : network :=
  {| companies := [(KStr "A",
                    {| c_cnpj := JStr "A"; c_razao_social := JStr "Acme";
                       c_nome_fantasia := JNull; c_capital_social := JNum 1000;
                       c_uf := JNull; c_situacao := JNull; c_socios_count := 3 |})];
     socios := [(KStr "P1", jo)];
     connections := [jo_in_acme; jo_in_acme] |}.

(** The same identifier returned twice with different bodies. *)
Definition first_a : json :=
  JObj [("cnpj", JStr "A"); ("razao_social", JStr "Acme"); ("capital_social", JNum 500);
        ("socios", JArr [])].

Definition second_a : json :=
  JObj [("cnpj", JStr "A"); ("razao_social", JStr "Acme"); ("capital_social", JNum 900);
        ("socios", JArr [JObj [("cpf", JStr "P2")]])].

(** What the build makes of [first_a] followed by [second_a]. *)
Definition first_a_network : network :=
  {| companies := [(KStr "A",
                    {| c_cnpj := JStr "A"; c_razao_social := JStr "Acme";
                       c_nome_fantasia := JNull; c_capital_social := JNum 500;
                       c_uf := JNull; c_situacao := JNull; c_socios_count := 0 |})];
     socios := [];
     connections := [] |}.

(** A record with nothing but the identifier and the legal name. *)
Definition bare : json :=
  JObj [("cnpj", JStr "A"); ("razao_social", JStr "Acme")].

(** A partner without a name. *)
Definition nameless : json :=
  JObj [("cnpj", JStr "A"); ("razao_social", JStr "Acme");
        ("socios", JArr [JObj [("cpf", JStr "P1")]])].

End Scenario.

(** Answers of the collaborator. *)
Module Replies.

(** Success status, body that is not JSON. *)
Definition garbled : collaborator :=
  fun _ => Ok {| status_code := 200; json_body := Raise JSONDecodeError |}.

(** Failure status, body that is not JSON. *)
Definition unavailable : collaborator :=
  fun _ => Ok {| status_code := 503; json_body := Raise JSONDecodeError |}.

(** Success status and no hit. *)
Definition nothing : collaborator :=
  fun _ => Ok {| status_code := 200; json_body := Ok (JObj [("hits", JArr [])]) |}.

End Replies.

(** * Reads, writes and plans

    The definitions below do not add to the program: they name what
    its loop bodies read and what they write, so that the properties
    can speak of them. *)

(** ** The reads and the writes of one ownership entry

    [process_socio] first reads the entry and then, unless it skips
    it, performs two or three writes.  [read_socio] is the reading
    part, [apply_entry] the writing part; [process_socio_run] shows
    that the loop body is exactly their composition. *)

Record entry : Type := {
  en_cnpj : json;
  en_cpf : json;
  en_key : key;
  en_nome : json;
  en_qualificacao : json;
  en_data_entrada : json;
  en_percentual : json
}.

Definition read_socio (cnpj socio : json) : result (option entry) :=
  (cpf <- Py.get socio "cpf" JNull ;;
   if negb (Py.truthy cpf) then Ok None else
   kcpf <- py_key cpf ;;
   nome <- Py.get socio "nome" JNull ;;
   qualificacao <- Py.get socio "qualificacao" JNull ;;
   data_entrada <- Py.get socio "data_entrada" JNull ;;
   percentual <- Py.get socio "percentual" JNull ;;
   Ok (Some {| en_cnpj := cnpj; en_cpf := cpf; en_key := kcpf; en_nome := nome;
               en_qualificacao := qualificacao; en_data_entrada := data_entrada;
               en_percentual := percentual |}))%result.

Definition conn_of (e : entry) : connection :=
  {| k_cnpj := en_cnpj e; k_cpf := en_cpf e; k_qualificacao := en_qualificacao e;
     k_data_entrada := en_data_entrada e; k_percentual := en_percentual e |}.

Definition new_socio (e : entry) : socio_entry :=
  {| s_cpf := en_cpf e; s_nome := en_nome e; s_companies := [] |}.

Definition ensure_socio (e : entry) (w : world) : world :=
  if dict_mem (en_key e) (socios (net (cur w))) then w
  else push (set_socio (en_key e) (new_socio e)) w.

Definition link_company (e : entry) (w : world) : world :=
  match dict_get (en_key e) (socios (net (cur w))) with
  | Some p => push (set_socio (en_key e) (append_company (en_cnpj e) p)) w
  | None => w
  end.

Definition apply_entry (e : entry) (w : world) : world :=
  link_company e (push (append_connection (conn_of e)) (ensure_socio e w)).

Definition apply_entries (es : list entry) (w : world) : world :=
  fold_left (fun w e => apply_entry e w) es w.

(** The entries of an ownership list read before the first failure,
    and whether the loop over the list completes. *)
Fixpoint scan_socios (cnpj : json) (l : list json) : list entry * result unit :=
  match l with
  | [] => ([], Ok tt)
  | socio :: l' =>
      match read_socio cnpj socio with
      | Raise x => ([], Raise x)
      | Ok None => scan_socios cnpj l'
      | Ok (Some e) => (e :: fst (scan_socios cnpj l'), snd (scan_socios cnpj l'))
      end
  end.

(** ** The reads and the writes of one company record

    The reads, in source order: the identifier and its key, the
    fields of the stored entry, the ownership list. *)

Definition read_id (company : json) : result (json * key) :=
  (cnpj <- Py.getitem company "cnpj" ;;
   kcnpj <- py_key cnpj ;;
   Ok (cnpj, kcnpj))%result.

Definition read_company (cnpj company : json) : result company_entry :=
  (razao_social <- Py.getitem company "razao_social" ;;
   nome_fantasia <- Py.get company "nome_fantasia" JNull ;;
   capital_social <- Py.get company "capital_social" (JNum 0) ;;
   uf <- Py.get company "uf" JNull ;;
   situacao <- Py.get company "situacao_cadastral" JNull ;;
   socios_count <- (s <- Py.get company "socios" (JArr []) ;; Py.len s) ;;
   Ok {| c_cnpj := cnpj;
         c_razao_social := razao_social;
         c_nome_fantasia := nome_fantasia;
         c_capital_social := capital_social;
         c_uf := uf;
         c_situacao := situacao;
         c_socios_count := socios_count |})%result.

Definition read_socios_list (company : json) : result (list json) :=
  (s <- Py.get company "socios" (JArr []) ;; Py.iter s)%result.

(** What a record that is not skipped writes when all its reads
    succeed. *)
Record unit_plan : Type := {
  u_cnpj : json;
  u_key : key;
  u_company : company_entry;
  u_socios : list json;
  u_entries : list entry
}.

Definition record_plan (company : json) : result unit_plan :=
  (id <- read_id company ;;
   ce <- read_company (fst id) company ;;
   l <- read_socios_list company ;;
   _ <- snd (scan_socios (fst id) l) ;;
   Ok {| u_cnpj := fst id; u_key := snd id; u_company := ce; u_socios := l;
         u_entries := fst (scan_socios (fst id) l) |})%result.

Definition apply_unit (u : unit_plan) (w : world) : world :=
  apply_entries (u_entries u)
    (push (set_company (u_key u) (u_company u)) (push (add_processed (u_key u)) w)).

Definition record_key (company : json) : result key :=
  (id <- read_id company ;; Ok (snd id))%result.

(** Whether the loop over [hits] completes when the identifiers in
    [seen] have been processed, and what it then writes. *)
Fixpoint hits_ok (seen : list key) (hits : list json) : bool :=
  match hits with
  | [] => true
  | r :: hits' =>
      match record_key r with
      | Raise _ => false
      | Ok k =>
          if set_mem k seen then hits_ok seen hits'
          else match record_plan r with
               | Ok _ => hits_ok (set_add k seen) hits'
               | Raise _ => false
               end
      end
  end.

Fixpoint plan_from (seen : list key) (hits : list json) : list unit_plan :=
  match hits with
  | [] => []
  | r :: hits' =>
      match record_key r with
      | Raise _ => []
      | Ok k =>
          if set_mem k seen then plan_from seen hits'
          else match record_plan r with
               | Ok u => u :: plan_from (set_add k seen) hits'
               | Raise _ => []
               end
      end
  end.

Definition apply_plan (us : list unit_plan) (w : world) : world :=
  fold_left (fun w u => apply_unit u w) us w.

(** ** The state after the writes *)

(** Find-or-create the partner of [e] and append the company to its
    list. *)
Definition upsert (e : entry) (d : dict socio_entry) : dict socio_entry :=
  dict_set (en_key e)
    (append_company (en_cnpj e)
       (match dict_get (en_key e) d with Some p => p | None => new_socio e end)) d.

Definition entry_state (e : entry) (st : state) : state :=
  {| net := {| companies := companies (net st);
               socios := upsert e (socios (net st));
               connections := connections (net st) ++ [conn_of e] |};
     processed_cnpjs := processed_cnpjs st |}.

Definition entries_state (es : list entry) (st : state) : state :=
  fold_left (fun st e => entry_state e st) es st.

Definition unit_state (u : unit_plan) (st : state) : state :=
  entries_state (u_entries u) (set_company (u_key u) (u_company u) (add_processed (u_key u) st)).

Definition plan_state (us : list unit_plan) (st : state) : state :=
  fold_left (fun st u => unit_state u st) us st.

(** ** What a plan leaves in the network *)

Definition unit_item (u : unit_plan) : key * company_entry := (u_key u, u_company u).

Definition plan_entries (us : list unit_plan) : list entry := flat_map u_entries us.

(** Every company key has been recorded as processed. *)
Definition keys_processed (st : state) : Prop :=
  forall k, dict_mem k (companies (net st)) = true -> set_mem k (processed_cnpjs st) = true.

Fixpoint fresh_plan (seen : list key) (us : list unit_plan) : Prop :=
  match us with
  | [] => True
  | u :: us' => set_mem (u_key u) seen = false /\ fresh_plan (set_add (u_key u) seen) us'
  end.

(** ** What the reads guarantee about a plan *)

(** An ownership entry carries a person identifier when its [cpf] is
    present and true in Python's sense (not [None], [""], [0], ...). *)
Definition has_person_id (socio : json) : bool :=
  match Py.get socio "cpf" JNull with
  | Ok cpf => Py.truthy cpf
  | Raise _ => false
  end.

Definition entry_wf (cnpj : json) (e : entry) : Prop :=
  en_cnpj e = cnpj /\ py_key (en_cpf e) = Ok (en_key e).

(** ** The build as a function of the hits *)

(** The loop and the return statement of [build_network]. *)
Definition run_hits (hits : list json) : result network * world :=
  (for_each hits process_company ;; st <- get_state ;; ret (net st))%build init_world.

(** The network a completed loop over [hits] returns. *)
Definition built (hits : list json) : network :=
  net (plan_state (plan_from [] hits) init_state).

(** The ownership entries that become connections, in the order the
    build meets them. *)
Definition edge_entries (hits : list json) : list entry :=
  plan_entries (plan_from [] hits).

(** ** The connections of one company, of one partner *)

(** The connections of one company: those whose [cnpj] hashes to [k]. *)
Definition conn_of_company (k : key) (c : connection) : bool :=
  match py_key (k_cnpj c) with
  | Ok k' => key_eqb k' k
  | Raise _ => false
  end.

(** The connections of one partner: those whose [cpf] hashes to [k]. *)
Definition conn_of_socio (k : key) (c : connection) : bool :=
  match py_key (k_cpf c) with
  | Ok k' => key_eqb k' k
  | Raise _ => false
  end.

(** ** Invariants of every state of a build *)

Definition has_key {V} (j : json) (d : dict V) : bool :=
  match py_key j with
  | Ok k => dict_mem k d
  | Raise _ => false
  end.

(** Both ends of a connection are keys of the maps of [n]. *)
Definition edge_ok (n : network) (c : connection) : bool :=
  has_key (k_cnpj c) (companies n) && has_key (k_cpf c) (socios n).

(** Referential integrity of the connection list. *)
Definition ref_ok (n : network) : bool := forallb (edge_ok n) (connections n).

(** One write: either the connection list is untouched, or exactly
    one connection is appended and both its ends were keys of the
    maps before the write. *)
Definition step_ok (older newer : state) : Prop :=
  connections (net newer) = connections (net older) \/
  exists c, connections (net newer) = (connections (net older) ++ [c])%list /\
            edge_ok (net older) c = true.

(** Nothing stored is replaced: a company entry stays as it is, a
    partner keeps its identifier and its name. *)
Definition extends (older newer : state) : Prop :=
  (forall k e, dict_get k (companies (net older)) = Some e ->
               dict_get k (companies (net newer)) = Some e) /\
  (forall k p, dict_get k (socios (net older)) = Some p ->
               exists p', dict_get k (socios (net newer)) = Some p' /\
                          s_cpf p' = s_cpf p /\ s_nome p' = s_nome p).

Definition state_ok (st : state) : Prop :=
  ref_ok (net st) = true /\ keys_processed st.

(** [chain R l]: [R older newer] for every two neighbours of a
    history [l] (most recent first). *)
Inductive chain (R : state -> state -> Prop) : list state -> Prop :=
| chain_nil : chain R []
| chain_one : forall s, chain R [s]
| chain_cons : forall newer older l,
    R older newer -> chain R (older :: l) -> chain R (newer :: older :: l).

Definition write_ok (older newer : state) : Prop :=
  step_ok older newer /\ extends older newer.

Definition good_world (w : world) : Prop :=
  Forall state_ok (history w) /\ chain write_ok (history w).

(** ** Partners as a function of the entries *)

Definition entry_of_socio (k : key) (e : entry) : bool := key_eqb (en_key e) k.

Fixpoint merge (o : option socio_entry) (es : list entry) : option socio_entry :=
  match es with
  | [] => o
  | e :: es' =>
      merge (Some (append_company (en_cnpj e)
                     (match o with Some p => p | None => new_socio e end))) es'
  end.

(** The entries behind the connections of the partner [k]. *)
Definition entries_of_socio (k : key) (hits : list json) : list entry :=
  filter (entry_of_socio k) (edge_entries hits).

(** ** Networks for the analyzer *)

Definition no_results : analysis :=
  {| socios_by_companies := []; companies_by_socios := []; companies_by_capital := [] |}.

(** The network built from one company whose only partner has no
    name. *)
Definition nameless_network : network :=
  {| companies := [(KStr "A", {| c_cnpj := JStr "A"; c_razao_social := JStr "Acme";
                                 c_nome_fantasia := JNull; c_capital_social := JNum 0;
                                 c_uf := JNull; c_situacao := JNull;
                                 c_socios_count := 1 |})];
     socios := [(KStr "P1", {| s_cpf := JStr "P1"; s_nome := JNull;
                               s_companies := [JStr "A"] |})];
     connections := [{| k_cnpj := JStr "A"; k_cpf := JStr "P1"; k_qualificacao := JNull;
                        k_data_entrada := JNull; k_percentual := JNull |}] |}.

(** *** The order of the rankings, as the specification words it *)

(** [a <= b] on numbers. *)
Definition number_le (a b : number) : Prop :=
  match a, b with
  | MinusInfinity, _ => True
  | _, PlusInfinity => True
  | Rational p, Rational q => (p <= q)%Q
  | _, _ => False
  end.

(** [a] and [b] are the same number. *)
Definition number_eqb (a b : number) : bool :=
  match a, b with
  | MinusInfinity, MinusInfinity => true
  | PlusInfinity, PlusInfinity => true
  | Rational p, Rational q => Qeq_bool p q
  | _, _ => false
  end.

(** A capital is [None] or a number: an [int], a [bool], or a
    [float] other than NaN. *)
Definition number_or_null (v : json) : bool :=
  match v with
  | JNull | JBool _ | JNum _ => true
  | JFloat (NaN _) => false
  | JFloat _ => true
  | _ => false
  end.

(** The capital as a number, 0 where there is none. *)
Definition capital_number (e : company_entry) : number :=
  match c_capital_social e with
  | JBool b => Rational (inject_Z (Z.b2z b))
  | JNum n => Rational (inject_Z n)
  | JFloat (Finite s m x) => Rational (dyadic s m x)
  | JFloat (Infinite s) => if s then MinusInfinity else PlusInfinity
  | _ => Rational 0
  end.

(** The networks on which the analyzer has no reason to fail: names
    are strings, and a capital is [None] or a number, NaN excepted,
    which as an [int] is within the range of [float]. *)
Definition is_string (v : json) : bool :=
  match v with JStr _ => true | _ => false end.

Definition printable_capital (v : json) : bool :=
  match v with
  | JNum n => (- (2 ^ 1024 - 2 ^ 970) <? n) && (n <? 2 ^ 1024 - 2 ^ 970)
  | _ => number_or_null v
  end.

Definition printable (n : network) : Prop :=
  Forall (fun x => is_string (s_nome (snd x)) = true) (socios n) /\
  Forall (fun x => is_string (c_razao_social (snd x)) = true /\
                   printable_capital (c_capital_social (snd x)) = true) (companies n).

(** Two companies, the first without a stored capital. *)
Definition two_companies : network :=
  {| companies :=
       [(KStr "A", {| c_cnpj := JStr "A"; c_razao_social := JStr "Acme";
                      c_nome_fantasia := JNull; c_capital_social := JNull;
                      c_uf := JNull; c_situacao := JNull; c_socios_count := 0 |});
        (KStr "B", {| c_cnpj := JStr "B"; c_razao_social := JStr "Bolt";
                      c_nome_fantasia := JNull; c_capital_social := JNum 7;
                      c_uf := JNull; c_situacao := JNull; c_socios_count := 0 |})];
     socios := [];
     connections := [] |}.

(** Three companies: no stored capital, the float 2.5, the integer
    7. *)
Definition three_companies : network :=
  {| companies :=
       [(KStr "A", {| c_cnpj := JStr "A"; c_razao_social := JStr "Acme";
                      c_nome_fantasia := JNull; c_capital_social := JNull;
                      c_uf := JNull; c_situacao := JNull; c_socios_count := 0 |});
        (KStr "B", {| c_cnpj := JStr "B"; c_razao_social := JStr "Bolt";
                      c_nome_fantasia := JNull;
                      c_capital_social := JFloat (Finite false 5 (-1));
                      c_uf := JNull; c_situacao := JNull; c_socios_count := 0 |});
        (KStr "C", {| c_cnpj := JStr "C"; c_razao_social := JStr "Core";
                      c_nome_fantasia := JNull; c_capital_social := JNum 7;
                      c_uf := JNull; c_situacao := JNull; c_socios_count := 0 |})];
     socios := [];
     connections := [] |}.

(** [two_companies] with the capitals [v] and [w]. *)
Definition with_capitals (v w : json) : network :=
  {| companies :=
       [(KStr "A", {| c_cnpj := JStr "A"; c_razao_social := JStr "Acme";
                      c_nome_fantasia := JNull; c_capital_social := v;
                      c_uf := JNull; c_situacao := JNull; c_socios_count := 0 |});
        (KStr "B", {| c_cnpj := JStr "B"; c_razao_social := JStr "Bolt";
                      c_nome_fantasia := JNull; c_capital_social := w;
                      c_uf := JNull; c_situacao := JNull; c_socios_count := 0 |})];
     socios := [];
     connections := [] |}.

(** The same capital three ways: the integer 2, the float 2.0 and
    the float 2.0 written with another mantissa. *)
Definition equal_capitals : network :=
  {| companies :=
       [(KStr "A", {| c_cnpj := JStr "A"; c_razao_social := JStr "Acme";
                      c_nome_fantasia := JNull; c_capital_social := JNum 2;
                      c_uf := JNull; c_situacao := JNull; c_socios_count := 0 |});
        (KStr "B", {| c_cnpj := JStr "B"; c_razao_social := JStr "Bolt";
                      c_nome_fantasia := JNull;
                      c_capital_social := JFloat (Finite false 1 1);
                      c_uf := JNull; c_situacao := JNull; c_socios_count := 0 |});
        (KStr "C", {| c_cnpj := JStr "C"; c_razao_social := JStr "Core";
                      c_nome_fantasia := JNull;
                      c_capital_social := JFloat (Finite false 4 (-1));
                      c_uf := JNull; c_situacao := JNull; c_socios_count := 0 |})];
     socios := [];
     connections := [] |}.

(** A string and a number as capitals. *)
Definition text_and_number : network := with_capitals (JStr "abc") (JNum 5).

(** A number and a NaN as capitals. *)
Definition number_and_nan : network := with_capitals (JNum 5) (JFloat (NaN 0)).

(** ** Records with optional fields *)

(** [m.get(k, dflt)] as a value. *)
Definition field (m : list (string * json)) (k : string) (dflt : json) : json :=
  match Py.lookup k m with
  | Some v => v
  | None => dflt
  end.

Definition hashable (v : json) : bool :=
  match py_key v with
  | Ok _ => true
  | Raise _ => false
  end.

(** An ownership entry the inner loop accepts: a dict whose [cpf] is
    absent, empty or hashable. *)
Definition socio_ok (socio : json) : bool :=
  match socio with
  | JObj sm => negb (Py.truthy (field sm "cpf" JNull)) || hashable (field sm "cpf" JNull)
  | _ => false
  end.

(** A record with a hashable [cnpj] and a [razao_social], whose
    [socios], when present, is a list of accepted entries.  No other
    field is asked for. *)
Definition record_ok (r : json) : bool :=
  match r with
  | JObj m =>
      match Py.lookup "cnpj" m, Py.lookup "razao_social" m with
      | Some cnpj, Some _ =>
          hashable cnpj &&
          match Py.lookup "socios" m with
          | None => true
          | Some (JArr l) => forallb socio_ok l
          | Some _ => false
          end
      | _, _ => false
      end
  | _ => false
  end.

Definition socios_length (m : list (string * json)) : nat :=
  match Py.lookup "socios" m with
  | Some (JArr l) => List.length l
  | _ => 0%nat
  end.

(** The entry stored for a record: the fields present, and the
    defaults for the fields absent. *)
Definition entry_with_defaults (cnpj razao_social : json) (m : list (string * json))
  : company_entry :=
  {| c_cnpj := cnpj;
     c_razao_social := razao_social;
     c_nome_fantasia := field m "nome_fantasia" JNull;
     c_capital_social := field m "capital_social" (JNum 0);
     c_uf := field m "uf" JNull;
     c_situacao := field m "situacao_cadastral" JNull;
     c_socios_count := socios_length m |}.

(** * The command line and the exported file *)

(** [query.replace(' ', '_')]: every space becomes an underscore. *)
Fixpoint replace_spaces (s : string) : string :=
  match s with
  | EmptyString => EmptyString
  | String c s' => String (if Ascii.eqb c " "%char then "_"%char else c) (replace_spaces s')
  end.

(** [sep.join(words)]. *)
Fixpoint join (sep : string) (words : list string) : string :=
  match words with
  | [] => ""
  | [w] => w
  | w :: ws => w ++ sep ++ join sep ws
  end.

(** The name [main] derives from the query. *)
Definition output_file (query : string) : string :=
  "company_network_" ++ replace_spaces query ++ ".json".

(** [export_to_json(network, filename)]: the file written, as its name
    and the network [json.dump] serialises into it.  (The text of
    the file and the failures of [open] are not modelled.) *)
Record file : Type := {
  file_name : string;
  file_content : network
}.

Definition export_to_json (n : network) (filename : string) : file :=
  {| file_name := filename; file_content := n |}.

(** How a run of the script ends: [sys.exit(status)], an exception
    that nothing catches, or normal termination after the export; or
    in a way the language does not settle, where the analysis is
    [Unspecified]. *)
Inductive outcome : Type :=
| Exit (status : Z)
| Uncaught (e : exn)
| Exported (f : file)
| Undetermined.

(** [main()], for the command line [argv] ([sys.argv], the script
    name first). *)
Definition main (post : collaborator) (argv : list string) : outcome :=
  if (List.length argv <? 2)%nat then Exit 1 else
  let query := join " " (tl argv) in
  match build post query 1 with
  | Raise e => Uncaught e
  | Ok network =>
      match analyze_network network with
      | Determined (Raise e) => Uncaught e
      | Determined (Ok _) => Exported (export_to_json network (output_file query))
      | Unspecified => Undetermined
      end
  end.

(** ** Identifiers in order of first occurrence *)

(** The identifiers of the records of [hits] that have one. *)
Definition hit_keys (hits : list json) : list key :=
  flat_map (fun r => match record_key r with Ok k => [k] | Raise _ => [] end) hits.

(** [ks] without the keys in [seen] and without repetitions, each key
    at the place of its first occurrence. *)
Fixpoint first_occurrences (seen : list key) (ks : list key) : list key :=
  match ks with
  | [] => []
  | k :: ks' =>
      if set_mem k seen then first_occurrences seen ks'
      else k :: first_occurrences (set_add k seen) ks'
  end.

(** A collaborator that cannot be reached. *)
Definition unreachable (e : exn) : collaborator := fun _ => Raise e.

(** ** Results the whole script accepts *)

(** An ownership entry the analyzer can print once built: an entry
    with a person identifier has a string as [nome]. *)
Definition socio_presentable (socio : json) : bool :=
  match socio with
  | JObj sm => negb (Py.truthy (field sm "cpf" JNull)) || is_string (field sm "nome" JNull)
  | _ => true
  end.

(** A record the analyzer can print once built: the legal name is a
    string, the capital is absent, [None] or a number (NaN excepted)
    which as an [int] is within the range of [float], and the
    ownership entries are presentable. *)
Definition presentable (r : json) : bool :=
  match r with
  | JObj m =>
      is_string (field m "razao_social" JNull) &&
      printable_capital (field m "capital_social" (JNum 0)) &&
      match Py.lookup "socios" m with
      | Some (JArr l) => forallb socio_presentable l
      | _ => true
      end
  | _ => false
  end.

(** ** The connection of an ownership entry *)

(** [socio.get(k)] as a value, for an entry that is an object. *)
Definition get_or_none (socio : json) (k : string) : json :=
  match Py.get socio k JNull with
  | Ok v => v
  | Raise _ => JNull
  end.

(** The connection appended for the entry [socio] of the company
    [cnpj]: the fields present, [None] for the fields absent. *)
Definition socio_connection (cnpj socio : json) : connection :=
  {| k_cnpj := cnpj;
     k_cpf := get_or_none socio "cpf";
     k_qualificacao := get_or_none socio "qualificacao";
     k_data_entrada := get_or_none socio "data_entrada";
     k_percentual := get_or_none socio "percentual" |}.

(** * Properties *)

(** ** Keys and dictionaries *)

Lemma pyfloat_eqb_eq (f g : pyfloat) : pyfloat_eqb f g = true <-> f = g.
Proof.
  destruct f as [s m e|s|o], g as [s' m' e'|s'|o']; simpl; split; intros H;
    try discriminate; try reflexivity.
  - apply andb_true_iff in H. destruct H as [H E].
    apply andb_true_iff in H. destruct H as [S M].
    apply Bool.eqb_prop in S. apply N.eqb_eq in M. apply Z.eqb_eq in E. now subst.
  - inversion H. now rewrite Bool.eqb_reflx, N.eqb_refl, Z.eqb_refl.
  - apply Bool.eqb_prop in H. now subst.
  - inversion H. apply Bool.eqb_reflx.
  - apply N.eqb_eq in H. now subst.
  - inversion H. apply N.eqb_refl.
Qed.

Lemma key_eqb_eq (a b : key) : key_eqb a b = true <-> a = b.
Proof.
  destruct a, b; simpl; split; intros H; try discriminate; try reflexivity.
  - apply Z.eqb_eq in H. now subst.
  - inversion H. apply Z.eqb_refl.
  - apply pyfloat_eqb_eq in H. now subst.
  - inversion H. now apply pyfloat_eqb_eq.
  - apply String.eqb_eq in H. now subst.
  - inversion H. apply String.eqb_refl.
Qed.

Lemma key_eqb_refl (a : key) : key_eqb a a = true.
Proof. now apply key_eqb_eq. Qed.

Lemma key_eqb_neq (a b : key) : key_eqb a b = false <-> a <> b.
Proof.
  split.
  - intros H E. apply key_eqb_eq in E. congruence.
  - intros H. destruct (key_eqb a b) eqn:E; [|reflexivity].
    apply key_eqb_eq in E. contradiction.
Qed.

Lemma key_eqb_sym (a b : key) : key_eqb a b = key_eqb b a.
Proof.
  destruct (key_eqb b a) eqn:E.
  - apply key_eqb_eq in E. subst. apply key_eqb_refl.
  - apply key_eqb_neq in E. apply key_eqb_neq. congruence.
Qed.

Section DictFacts.

Variable V : Type.
Implicit Types (d : dict V) (k : key) (v : V).

Lemma dict_get_set_same k v d : dict_get k (dict_set k v d) = Some v.
Proof.
  induction d as [|[k' v'] d IH]; simpl.
  - now rewrite key_eqb_refl.
  - destruct (key_eqb k k') eqn:E; simpl; rewrite E; auto.
Qed.

Lemma dict_get_set_other k k' v d :
  k <> k' -> dict_get k' (dict_set k v d) = dict_get k' d.
Proof.
  intros N. induction d as [|[k0 v0] d IH]; simpl.
  - assert (key_eqb k' k = false) as -> by (apply key_eqb_neq; congruence).
    reflexivity.
  - destruct (key_eqb k k0) eqn:E; simpl.
    + apply key_eqb_eq in E. subst k0.
      assert (key_eqb k' k = false) as -> by (apply key_eqb_neq; congruence).
      reflexivity.
    + now rewrite IH.
Qed.

Lemma dict_get_set k k' v d :
  dict_get k' (dict_set k v d) = if key_eqb k k' then Some v else dict_get k' d.
Proof.
  destruct (key_eqb k k') eqn:E.
  - apply key_eqb_eq in E. subst. apply dict_get_set_same.
  - apply key_eqb_neq in E. now apply dict_get_set_other.
Qed.

Lemma dict_mem_set k k' v d :
  dict_mem k' (dict_set k v d) = key_eqb k k' || dict_mem k' d.
Proof.
  unfold dict_mem. rewrite dict_get_set. now destruct (key_eqb k k').
Qed.

Lemma dict_set_fresh k v d :
  dict_get k d = None -> dict_set k v d = (d ++ [(k, v)])%list.
Proof.
  induction d as [|[k' v'] d IH]; simpl; intros H; [reflexivity|].
  destruct (key_eqb k k'); [discriminate|]. now rewrite IH.
Qed.

Lemma dict_set_keys k v d :
  dict_mem k d = true -> map fst (dict_set k v d) = map fst d.
Proof.
  unfold dict_mem. induction d as [|[k' v'] d IH]; simpl; [discriminate|].
  destruct (key_eqb k k') eqn:E; simpl; intros H; [reflexivity|].
  now rewrite IH.
Qed.

Lemma dict_get_in k v d : dict_get k d = Some v -> In (k, v) d.
Proof.
  induction d as [|[k' v'] d IH]; simpl; [discriminate|].
  destruct (key_eqb k k') eqn:E; intros H.
  - apply key_eqb_eq in E. inversion H. subst. now left.
  - right. auto.
Qed.

Lemma dict_get_none k d : dict_get k d = None <-> ~ In k (map fst d).
Proof.
  induction d as [|[k' v'] d IH]; simpl; [tauto|].
  destruct (key_eqb k k') eqn:E.
  - apply key_eqb_eq in E. subst. split; [discriminate|]. intros H. exfalso. auto.
  - apply key_eqb_neq in E. rewrite IH. split; [|tauto].
    intros H [F|F]; [congruence|tauto].
Qed.

Lemma dict_in_get k v d : NoDup (map fst d) -> In (k, v) d -> dict_get k d = Some v.
Proof.
  induction d as [|[k' v'] d IH]; simpl; [tauto|].
  intros ND [H|H].
  - inversion H. subst. now rewrite key_eqb_refl.
  - inversion ND as [|? ? NI ND']. subst.
    destruct (key_eqb k k') eqn:E; [|auto].
    apply key_eqb_eq in E. subst. exfalso. apply NI.
    change k' with (fst (k', v)). now apply in_map.
Qed.

End DictFacts.

Lemma set_mem_in (k : key) (s : list key) : set_mem k s = true <-> In k s.
Proof.
  unfold set_mem. rewrite existsb_exists. split.
  - intros [x [I E]]. apply key_eqb_eq in E. now subst.
  - intros I. exists k. split; [assumption|apply key_eqb_refl].
Qed.

Lemma set_mem_add (k k' : key) (s : list key) :
  set_mem k' (set_add k s) = key_eqb k k' || set_mem k' s.
Proof.
  unfold set_add. destruct (set_mem k s) eqn:E.
  - destruct (key_eqb k k') eqn:F; [|reflexivity].
    apply key_eqb_eq in F. subst. now rewrite E.
  - unfold set_mem. rewrite existsb_app. simpl.
    rewrite orb_false_r, (key_eqb_sym k' k). apply orb_comm.
Qed.

(** ** The loop bodies as reads followed by writes *)

Lemma process_socio_run (cnpj socio : json) (w : world) :
  process_socio cnpj socio w =
  match read_socio cnpj socio with
  | Raise x => (Raise x, w)
  | Ok None => (Ok tt, w)
  | Ok (Some e) => (Ok tt, apply_entry e w)
  end.
Proof.
  unfold process_socio, read_socio, bind, lift, get_state, modify, ret, raise.
  destruct socio as [| | | | | |m]; try reflexivity.
  simpl. set (cpf := match Py.lookup "cpf" m with Some v => v | None => JNull end).
  assert (Hc : match Py.lookup "cpf" m with Some v => Ok v | None => Ok JNull end = Ok cpf)
    by (unfold cpf; now destruct (Py.lookup "cpf" m)).
  rewrite Hc. simpl.
  destruct (Py.truthy cpf); simpl; [|reflexivity].
  destruct (py_key cpf) as [k|x]; simpl; [|reflexivity].
  unfold apply_entry, ensure_socio, link_company. simpl.
  destruct (Py.lookup "nome" m), (Py.lookup "qualificacao" m),
    (Py.lookup "data_entrada" m), (Py.lookup "percentual" m); simpl;
  unfold dict_mem;
  destruct (dict_get k (socios (net (cur w)))) eqn:G; simpl;
  rewrite ?G, ?dict_get_set_same; reflexivity.
Qed.

Lemma for_each_socios_run (cnpj : json) (l : list json) (w : world) :
  for_each l (process_socio cnpj) w =
  (snd (scan_socios cnpj l), apply_entries (fst (scan_socios cnpj l)) w).
Proof.
  revert w. induction l as [|socio l IH]; intros w; simpl; [reflexivity|].
  unfold bind. rewrite process_socio_run.
  destruct (read_socio cnpj socio) as [[e|]|x]; simpl; auto.
Qed.

Lemma process_company_run (company : json) (w : world) :
  process_company company w =
  match read_id company with
  | Raise x => (Raise x, w)
  | Ok (cnpj, k) =>
      if set_mem k (processed_cnpjs (cur w)) then (Ok tt, w) else
      let w1 := push (add_processed k) w in
      match read_company cnpj company with
      | Raise x => (Raise x, w1)
      | Ok ce =>
          let w2 := push (set_company k ce) w1 in
          match read_socios_list company with
          | Raise x => (Raise x, w2)
          | Ok l => (snd (scan_socios cnpj l), apply_entries (fst (scan_socios cnpj l)) w2)
          end
      end
  end.
Proof.
  unfold process_company, read_id, read_company, read_socios_list,
    bind, lift, get_state, modify, ret.
  destruct (Py.getitem company "cnpj") as [cnpj|x]; simpl; [|reflexivity].
  destruct (py_key cnpj) as [k|x]; simpl; [|reflexivity].
  destruct (set_mem k (processed_cnpjs (cur w))); [reflexivity|].
  destruct (Py.getitem company "razao_social") as [rs|x]; simpl; [|reflexivity].
  destruct (Py.get company "nome_fantasia" JNull) as [nf|x]; simpl; [|reflexivity].
  destruct (Py.get company "capital_social" (JNum 0)) as [cs|x]; simpl; [|reflexivity].
  destruct (Py.get company "uf" JNull) as [uf|x]; simpl; [|reflexivity].
  destruct (Py.get company "situacao_cadastral" JNull) as [si|x]; simpl; [|reflexivity].
  destruct (Py.get company "socios" (JArr [])) as [so|x]; simpl; [|reflexivity].
  destruct (Py.len so) as [n|x]; simpl; [|reflexivity].
  destruct (Py.iter so) as [l|x]; simpl; [|reflexivity].
  apply for_each_socios_run.
Qed.

Lemma record_plan_key (r : json) (u : unit_plan) :
  record_plan r = Ok u -> record_key r = Ok (u_key u) /\ read_id r = Ok (u_cnpj u, u_key u).
Proof.
  unfold record_plan, record_key.
  destruct (read_id r) as [[cnpj k]|x]; simpl; [|discriminate].
  destruct (read_company cnpj r); simpl; [|discriminate].
  destruct (read_socios_list r); simpl; [|discriminate].
  destruct (snd (scan_socios cnpj a0)); simpl; [|discriminate].
  intros H. inversion H. simpl. auto.
Qed.

Lemma process_company_skip (r : json) (k : key) (w : world) :
  record_key r = Ok k -> set_mem k (processed_cnpjs (cur w)) = true ->
  process_company r w = (Ok tt, w).
Proof.
  intros K S. rewrite process_company_run. unfold record_key in K.
  destruct (read_id r) as [[cnpj k']|x]; simpl in K; [|discriminate].
  inversion K. subst. now rewrite S.
Qed.

Lemma process_company_ok (r : json) (w : world) :
  fst (process_company r w) = Ok tt <->
  exists k, record_key r = Ok k /\
    (set_mem k (processed_cnpjs (cur w)) = true \/ exists u, record_plan r = Ok u).
Proof.
  rewrite process_company_run. unfold record_key, record_plan.
  destruct (read_id r) as [[cnpj k]|x]; simpl.
  2:{ split; [discriminate|]. intros [k [H _]]. discriminate. }
  destruct (set_mem k (processed_cnpjs (cur w))) eqn:S; simpl.
  { split; [|reflexivity]. intros _. exists k. auto. }
  destruct (read_company cnpj r) as [ce|x]; simpl.
  2:{ split; [discriminate|]. intros [k' [H [F|[u F]]]]; inversion H; subst; congruence. }
  destruct (read_socios_list r) as [l|x]; simpl.
  2:{ split; [discriminate|]. intros [k' [H [F|[u F]]]]; inversion H; subst; congruence. }
  destruct (snd (scan_socios cnpj l)) as [[]|x]; simpl.
  - split; [|reflexivity]. intros _. exists k. split; [reflexivity|]. right. eauto.
  - split; [discriminate|]. intros [k' [H [F|[u F]]]]; inversion H; subst; congruence.
Qed.

Lemma process_company_plan (r : json) (u : unit_plan) (w : world) :
  record_plan r = Ok u -> set_mem (u_key u) (processed_cnpjs (cur w)) = false ->
  process_company r w = (Ok tt, apply_unit u w).
Proof.
  intros P S. rewrite process_company_run. revert P. unfold record_plan.
  destruct (read_id r) as [[cnpj k]|x]; simpl; [|discriminate].
  destruct (read_company cnpj r) as [ce|x]; simpl; [|discriminate].
  destruct (read_socios_list r) as [l|x]; simpl; [|discriminate].
  destruct (snd (scan_socios cnpj l)) as [[]|x] eqn:E; simpl; [|discriminate].
  intros H. inversion H. subst u. simpl in *. rewrite S. reflexivity.
Qed.

(** ** The state after the writes *)

Lemma dict_set_set {V} (k : key) (v v' : V) (d : dict V) :
  dict_set k v (dict_set k v' d) = dict_set k v d.
Proof.
  induction d as [|[k0 v0] d IH]; simpl.
  - now rewrite key_eqb_refl.
  - destruct (key_eqb k k0) eqn:E; simpl; rewrite E; [reflexivity|].
    now rewrite IH.
Qed.

Lemma apply_entry_cur (e : entry) (w : world) :
  cur (apply_entry e w) = entry_state e (cur w).
Proof.
  unfold apply_entry, link_company, ensure_socio, entry_state, upsert, dict_mem.
  destruct (dict_get (en_key e) (socios (net (cur w)))) eqn:G; simpl.
  - rewrite G. reflexivity.
  - rewrite dict_get_set_same. unfold set_socio, append_connection. simpl.
    now rewrite dict_set_set.
Qed.

Lemma apply_entries_cur (es : list entry) (w : world) :
  cur (apply_entries es w) = entries_state es (cur w).
Proof.
  revert w. induction es as [|e es IH]; intros w; simpl; [reflexivity|].
  unfold apply_entries in IH. rewrite IH. now rewrite apply_entry_cur.
Qed.

Lemma entries_state_processed (es : list entry) (st : state) :
  processed_cnpjs (entries_state es st) = processed_cnpjs st.
Proof.
  revert st. induction es as [|e es IH]; intros st; simpl; [reflexivity|].
  unfold entries_state in IH. now rewrite IH.
Qed.

Lemma entries_state_companies (es : list entry) (st : state) :
  companies (net (entries_state es st)) = companies (net st).
Proof.
  revert st. induction es as [|e es IH]; intros st; simpl; [reflexivity|].
  unfold entries_state in IH. now rewrite IH.
Qed.

Lemma entries_state_connections (es : list entry) (st : state) :
  connections (net (entries_state es st)) = (connections (net st) ++ map conn_of es)%list.
Proof.
  revert st. induction es as [|e es IH]; intros st; simpl.
  - now rewrite app_nil_r.
  - unfold entries_state in IH. rewrite IH. simpl. now rewrite <- app_assoc.
Qed.

Lemma entries_state_socios (es : list entry) (st : state) :
  socios (net (entries_state es st)) = fold_left (fun d e => upsert e d) es (socios (net st)).
Proof.
  revert st. induction es as [|e es IH]; intros st; simpl; [reflexivity|].
  unfold entries_state in IH. now rewrite IH.
Qed.

Lemma apply_unit_cur (u : unit_plan) (w : world) :
  cur (apply_unit u w) = unit_state u (cur w).
Proof. unfold apply_unit. now rewrite apply_entries_cur. Qed.

Lemma unit_state_processed (u : unit_plan) (st : state) :
  processed_cnpjs (unit_state u st) = set_add (u_key u) (processed_cnpjs st).
Proof. unfold unit_state. now rewrite entries_state_processed. Qed.

Lemma apply_plan_cur (us : list unit_plan) (w : world) :
  cur (apply_plan us w) = plan_state us (cur w).
Proof.
  revert w. induction us as [|u us IH]; intros w; simpl; [reflexivity|].
  unfold apply_plan in IH. rewrite IH. now rewrite apply_unit_cur.
Qed.

(** The outer loop: it completes exactly when [hits_ok] says so, and
    then it has written the plan. *)
Lemma for_each_companies_run (hits : list json) (w : world) :
  hits_ok (processed_cnpjs (cur w)) hits = true ->
  for_each hits process_company w =
  (Ok tt, apply_plan (plan_from (processed_cnpjs (cur w)) hits) w).
Proof.
  revert w. induction hits as [|r hits IH]; intros w; simpl; [reflexivity|].
  unfold bind. destruct (record_key r) as [k|x] eqn:K; [|discriminate].
  destruct (set_mem k (processed_cnpjs (cur w))) eqn:S.
  - intros H. rewrite (process_company_skip r w K S). now apply IH.
  - destruct (record_plan r) as [u|x] eqn:P; [|discriminate].
    destruct (record_plan_key r P) as [K' _].
    assert (k = u_key u) by congruence. subst k.
    intros H. rewrite (process_company_plan r w P S).
    rewrite IH; rewrite apply_unit_cur, unit_state_processed; [reflexivity|assumption].
Qed.

Lemma for_each_companies_ok (hits : list json) (w : world) :
  fst (for_each hits process_company w) = Ok tt <->
  hits_ok (processed_cnpjs (cur w)) hits = true.
Proof.
  split; [|intros H; now rewrite for_each_companies_run].
  revert w. induction hits as [|r hits IH]; intros w; simpl; [reflexivity|].
  unfold bind. destruct (process_company r w) as [[[]|x] w1] eqn:E; simpl; [|discriminate].
  assert (O : fst (process_company r w) = Ok tt) by now rewrite E.
  apply process_company_ok in O. destruct O as [k [K O]]. rewrite K.
  destruct (set_mem k (processed_cnpjs (cur w))) eqn:S.
  - rewrite (process_company_skip r w K S) in E. inversion E. subst. apply IH.
  - destruct O as [O|[u P]]; [discriminate|]. rewrite P.
    destruct (record_plan_key r P) as [K' _].
    assert (k = u_key u) by congruence. subst k.
    rewrite (process_company_plan r w P S) in E. inversion E. subst w1.
    intros H. apply IH in H. now rewrite apply_unit_cur, unit_state_processed in H.
Qed.

(** ** What a plan leaves in the network *)

Lemma plan_from_fresh (hits : list json) (seen : list key) :
  fresh_plan seen (plan_from seen hits).
Proof.
  revert seen. induction hits as [|r hits IH]; intros seen; simpl; [exact I|].
  destruct (record_key r) as [k|x] eqn:K; [|exact I].
  destruct (set_mem k seen) eqn:S; [apply IH|].
  destruct (record_plan r) as [u|x] eqn:P; [|exact I].
  destruct (record_plan_key r P) as [K' _].
  assert (k = u_key u) by congruence. subst k. simpl. auto.
Qed.

Lemma fresh_plan_notin (us : list unit_plan) (seen : list key) (u : unit_plan) :
  fresh_plan seen us -> In u us -> set_mem (u_key u) seen = false.
Proof.
  revert seen. induction us as [|u0 us IH]; intros seen; simpl; [tauto|].
  intros [S F] [E|I]; [now subst|].
  specialize (IH _ F I). rewrite set_mem_add in IH.
  now apply orb_false_iff in IH.
Qed.

Lemma fresh_plan_nodup (us : list unit_plan) (seen : list key) :
  fresh_plan seen us -> NoDup (map u_key us).
Proof.
  revert seen. induction us as [|u us IH]; intros seen; simpl; [constructor|].
  intros [S F]. constructor; [|eauto].
  intros I. apply in_map_iff in I. destruct I as [u' [E I]].
  pose proof (fresh_plan_notin _ _ _ F I) as N.
  rewrite set_mem_add, E, key_eqb_refl in N. discriminate.
Qed.

Lemma plan_state_connections (us : list unit_plan) (st : state) :
  connections (net (plan_state us st)) =
  (connections (net st) ++ map conn_of (plan_entries us))%list.
Proof.
  revert st. induction us as [|u us IH]; intros st; simpl.
  - now rewrite app_nil_r.
  - unfold plan_state in IH. rewrite IH. unfold unit_state.
    rewrite entries_state_connections. simpl.
    now rewrite map_app, app_assoc.
Qed.

Lemma plan_state_socios (us : list unit_plan) (st : state) :
  socios (net (plan_state us st)) =
  fold_left (fun d e => upsert e d) (plan_entries us) (socios (net st)).
Proof.
  revert st. induction us as [|u us IH]; intros st; simpl; [reflexivity|].
  unfold plan_state in IH. rewrite IH. unfold unit_state.
  rewrite entries_state_socios. simpl. now rewrite fold_left_app.
Qed.

Lemma plan_state_processed_mono (us : list unit_plan) (st : state) (k : key) :
  set_mem k (processed_cnpjs st) = true ->
  set_mem k (processed_cnpjs (plan_state us st)) = true.
Proof.
  revert st. induction us as [|u us IH]; intros st; simpl; [auto|].
  intros H. apply IH. rewrite unit_state_processed, set_mem_add, H. apply orb_true_r.
Qed.

Lemma unit_state_keys_processed (u : unit_plan) (st : state) :
  keys_processed st -> keys_processed (unit_state u st).
Proof.
  intros J k. unfold unit_state.
  rewrite entries_state_companies, entries_state_processed. simpl.
  rewrite dict_mem_set, set_mem_add.
  destruct (key_eqb (u_key u) k); simpl; auto.
Qed.

Lemma plan_state_companies (us : list unit_plan) (st : state) :
  keys_processed st -> fresh_plan (processed_cnpjs st) us ->
  companies (net (plan_state us st)) = (companies (net st) ++ map unit_item us)%list.
Proof.
  revert st. induction us as [|u us IH]; intros st J; simpl.
  - now rewrite app_nil_r.
  - intros [S F]. unfold plan_state in IH. rewrite IH.
    + unfold unit_state. rewrite entries_state_companies. simpl.
      rewrite dict_set_fresh, <- app_assoc; [reflexivity|].
      destruct (dict_get (u_key u) (companies (net st))) eqn:G; [|reflexivity].
      specialize (J (u_key u)). unfold dict_mem in J. rewrite G in J.
      specialize (J eq_refl). congruence.
    + now apply unit_state_keys_processed.
    + now rewrite unit_state_processed.
Qed.

(** ** What the reads guarantee about a plan *)

Lemma read_socio_some (cnpj socio : json) (e : entry) :
  read_socio cnpj socio = Ok (Some e) ->
  entry_wf cnpj e /\ has_person_id socio = true /\
  Py.get socio "cpf" JNull = Ok (en_cpf e) /\
  Py.get socio "nome" JNull = Ok (en_nome e).
Proof.
  unfold read_socio, has_person_id, entry_wf.
  destruct (Py.get socio "cpf" JNull) as [cpf|x]; simpl; [|discriminate].
  destruct (Py.truthy cpf); simpl; [|discriminate].
  destruct (py_key cpf) as [k|x] eqn:K; simpl; [|discriminate].
  destruct (Py.get socio "nome" JNull) as [nome|x]; simpl; [|discriminate].
  destruct (Py.get socio "qualificacao" JNull) as [a|x]; simpl; [|discriminate].
  destruct (Py.get socio "data_entrada" JNull) as [b|x]; simpl; [|discriminate].
  destruct (Py.get socio "percentual" JNull) as [c|x]; simpl; [|discriminate].
  intros H. inversion H. simpl. repeat split; auto.
Qed.

Lemma read_socio_none (cnpj socio : json) :
  read_socio cnpj socio = Ok None -> has_person_id socio = false.
Proof.
  unfold read_socio, has_person_id.
  destruct (Py.get socio "cpf" JNull) as [cpf|x]; simpl; [|discriminate].
  destruct (Py.truthy cpf); simpl; [|reflexivity].
  destruct (py_key cpf) as [k|x]; simpl; [|discriminate].
  destruct (Py.get socio "nome" JNull) as [nome|x]; simpl; [|discriminate].
  destruct (Py.get socio "qualificacao" JNull) as [a|x]; simpl; [|discriminate].
  destruct (Py.get socio "data_entrada" JNull) as [b|x]; simpl; [|discriminate].
  destruct (Py.get socio "percentual" JNull) as [c|x]; simpl; discriminate.
Qed.

Lemma scan_socios_wf (cnpj : json) (l : list json) :
  Forall (entry_wf cnpj) (fst (scan_socios cnpj l)).
Proof.
  induction l as [|socio l IH]; simpl; [constructor|].
  destruct (read_socio cnpj socio) as [[e|]|x] eqn:R; simpl; auto.
  constructor; [|assumption]. now apply read_socio_some in R.
Qed.

Lemma scan_socios_length (cnpj : json) (l : list json) :
  snd (scan_socios cnpj l) = Ok tt ->
  List.length (fst (scan_socios cnpj l)) = List.length (filter has_person_id l).
Proof.
  induction l as [|socio l IH]; simpl; [reflexivity|].
  destruct (read_socio cnpj socio) as [[e|]|x] eqn:R; simpl.
  - apply read_socio_some in R. destruct R as [_ [-> _]]. simpl. auto.
  - apply read_socio_none in R. rewrite R. auto.
  - discriminate.
Qed.

Lemma list_ascii_length (s : string) :
  List.length (list_ascii_of_string s) = String.length s.
Proof. induction s; simpl; auto. Qed.

Lemma iter_len (v : json) (l : list json) :
  Py.iter v = Ok l -> Py.len v = Ok (List.length l).
Proof.
  destruct v; simpl; intros H; inversion H; subst; try reflexivity.
  - now rewrite length_map, list_ascii_length.
  - now rewrite length_map.
Qed.

Lemma record_plan_wf (r : json) (u : unit_plan) :
  record_plan r = Ok u ->
  py_key (u_cnpj u) = Ok (u_key u) /\
  read_company (u_cnpj u) r = Ok (u_company u) /\
  read_socios_list r = Ok (u_socios u) /\
  c_socios_count (u_company u) = List.length (u_socios u) /\
  Forall (entry_wf (u_cnpj u)) (u_entries u) /\
  List.length (u_entries u) = List.length (filter has_person_id (u_socios u)).
Proof.
  unfold record_plan, read_id.
  destruct (Py.getitem r "cnpj") as [cnpj|x]; simpl; [|discriminate].
  destruct (py_key cnpj) as [k|x] eqn:K; simpl; [|discriminate].
  destruct (read_company cnpj r) as [ce|x] eqn:C; simpl; [|discriminate].
  destruct (read_socios_list r) as [l|x] eqn:L; simpl; [|discriminate].
  destruct (snd (scan_socios cnpj l)) as [[]|x] eqn:S; simpl; [|discriminate].
  intros H. inversion H. subst u. simpl.
  repeat split; auto using scan_socios_wf, scan_socios_length.
  revert C L. unfold read_company, read_socios_list.
  destruct (Py.getitem r "razao_social"); simpl; [|discriminate].
  destruct (Py.get r "nome_fantasia" JNull); simpl; [|discriminate].
  destruct (Py.get r "capital_social" (JNum 0)); simpl; [|discriminate].
  destruct (Py.get r "uf" JNull); simpl; [|discriminate].
  destruct (Py.get r "situacao_cadastral" JNull); simpl; [|discriminate].
  destruct (Py.get r "socios" (JArr [])) as [s|x]; simpl; [|discriminate].
  intros C L. rewrite (iter_len _ L) in C. simpl in C. inversion C. reflexivity.
Qed.

(** ** The build as a function of the hits *)

Lemma for_each_app {A} (l1 l2 : list A) (body : A -> M unit) (w : world) :
  for_each (l1 ++ l2) body w =
  match for_each l1 body w with
  | (Ok _, w1) => for_each l2 body w1
  | (Raise x, w1) => (Raise x, w1)
  end.
Proof.
  revert w. induction l1 as [|a l1 IH]; intros w; simpl; [reflexivity|].
  unfold bind. destruct (body a w) as [[[]|x] w1]; [apply IH|reflexivity].
Qed.

Lemma build_network_run (post : collaborator) (q : string) (d : Z) (v : json)
    (hits : list json) :
  search_companies post q 10 = Ok v -> Py.iter v = Ok hits ->
  build_network post q d init_world = run_hits hits.
Proof.
  intros S I. unfold build_network, run_hits, bind, lift.
  rewrite S, (iter_len _ I), I. reflexivity.
Qed.

Lemma run_hits_ok (hits : list json) (n : network) :
  fst (run_hits hits) = Ok n <-> hits_ok [] hits = true /\ n = built hits.
Proof.
  unfold run_hits, bind, get_state, ret, built.
  pose proof (for_each_companies_ok hits init_world) as O.
  pose proof (for_each_companies_run hits init_world) as R.
  simpl in O, R.
  destruct (for_each hits process_company init_world) as [[[]|x] w1]; simpl in *.
  - destruct O as [O _]. specialize (O eq_refl). specialize (R O).
    inversion R. subst w1. rewrite apply_plan_cur. simpl.
    split; [intros H; inversion H; auto|intros [_ ->]; reflexivity].
  - split; [discriminate|]. intros [H _]. apply O in H. discriminate.
Qed.

Lemma build_ok (post : collaborator) (q : string) (d : Z) (hits : list json) (n : network) :
  search_companies post q 10 = Ok (JArr hits) ->
  (build post q d = Ok n <-> hits_ok [] hits = true /\ n = built hits).
Proof.
  intros S. unfold build. rewrite (build_network_run post q d S (hits := hits) eq_refl).
  apply run_hits_ok.
Qed.

Lemma init_keys_processed : keys_processed init_state.
Proof. intros k. simpl. discriminate. Qed.

Lemma built_companies (hits : list json) :
  companies (built hits) = map unit_item (plan_from [] hits).
Proof.
  unfold built. rewrite plan_state_companies; simpl;
    auto using init_keys_processed, plan_from_fresh.
Qed.

Lemma built_connections (hits : list json) :
  connections (built hits) = map conn_of (edge_entries hits).
Proof. unfold built. now rewrite plan_state_connections. Qed.

Lemma built_socios (hits : list json) :
  socios (built hits) = fold_left (fun d e => upsert e d) (edge_entries hits) [].
Proof. unfold built. now rewrite plan_state_socios. Qed.

Lemma built_keys_nodup (hits : list json) : NoDup (map fst (companies (built hits))).
Proof.
  rewrite built_companies, map_map. simpl.
  apply fresh_plan_nodup with (seen := []). apply plan_from_fresh.
Qed.

(** ** First occurrences *)

Lemma plan_from_in (hits : list json) (seen : list key) (u : unit_plan) :
  In u (plan_from seen hits) -> exists r, In r hits /\ record_plan r = Ok u.
Proof.
  revert seen. induction hits as [|r hits IH]; intros seen; simpl; [tauto|].
  destruct (record_key r) as [k|x]; [|simpl; tauto].
  destruct (set_mem k seen).
  - intros I. destruct (IH _ I) as [r' [I' P]]. eauto.
  - destruct (record_plan r) as [u0|x] eqn:P; [|simpl; tauto].
    intros [E|I]; [subst; eauto|].
    destruct (IH _ I) as [r' [I' P']]. eauto.
Qed.

(** The plan of a completed loop around the first record with key
    [k]: that record's unit, between units with other keys. *)
Lemma plan_first (pre : list json) (r : json) (rest : list json) (k : key)
    (seen : list key) :
  hits_ok seen (pre ++ r :: rest) = true ->
  record_key r = Ok k -> set_mem k seen = false ->
  (forall r', In r' pre -> record_key r' <> Ok k) ->
  exists u us1 us2,
    record_plan r = Ok u /\ u_key u = k /\
    plan_from seen (pre ++ r :: rest) = (us1 ++ u :: us2)%list /\
    (forall u', In u' us1 -> u_key u' <> k) /\
    (forall u', In u' us2 -> u_key u' <> k).
Proof.
  revert seen. induction pre as [|r0 pre IH]; intros seen; simpl.
  - intros H K S _. rewrite K, S in *.
    destruct (record_plan r) as [u|x] eqn:P; [|discriminate].
    destruct (record_plan_key r P) as [K' _].
    assert (E : k = u_key u) by congruence.
    exists u, [], (plan_from (set_add k seen) rest). simpl.
    split; [reflexivity|]. split; [auto|]. split; [reflexivity|].
    split; [tauto|].
    intros u' I F.
    pose proof (fresh_plan_notin _ _ _ (plan_from_fresh rest (set_add k seen)) I) as N.
    rewrite set_mem_add, F, key_eqb_refl in N. discriminate.
  - intros H K S N.
    assert (N0 : record_key r0 <> Ok k) by (apply N; now left).
    assert (N' : forall r', In r' pre -> record_key r' <> Ok k) by (intros; apply N; now right).
    destruct (record_key r0) as [k0|x] eqn:K0; [|discriminate].
    destruct (set_mem k0 seen) eqn:S0.
    + apply IH; auto.
    + destruct (record_plan r0) as [u0|x] eqn:P0; [|discriminate].
      assert (S' : set_mem k (set_add k0 seen) = false).
      { rewrite set_mem_add, S, orb_false_r. apply key_eqb_neq. congruence. }
      destruct (IH _ H K S' N') as [u [us1 [us2 [P [E [Q [A B]]]]]]].
      exists u, (u0 :: us1), us2. rewrite Q. repeat split; auto.
      intros u' [<-|I]; [|auto].
      destruct (record_plan_key r0 P0) as [K0' _]. congruence.
Qed.

Lemma dict_get_items_first (us1 us2 : list unit_plan) (u : unit_plan) :
  (forall u', In u' us1 -> u_key u' <> u_key u) ->
  dict_get (u_key u) (map unit_item (us1 ++ u :: us2)) = Some (u_company u).
Proof.
  induction us1 as [|u0 us1 IH]; simpl; intros N.
  - now rewrite key_eqb_refl.
  - assert (key_eqb (u_key u) (u_key u0) = false) as ->.
    { apply key_eqb_neq. intros E. apply (N u0); auto. }
    apply IH. auto.
Qed.

Lemma filter_unit_entries (k : key) (r : json) (u : unit_plan) :
  record_plan r = Ok u ->
  filter (conn_of_company k) (map conn_of (u_entries u)) =
  if key_eqb (u_key u) k then map conn_of (u_entries u) else [].
Proof.
  intros P. destruct (record_plan_wf r P) as [K [_ [_ [_ [W _]]]]].
  induction W as [|e es [E _] W IH]; simpl.
  - now destruct (key_eqb (u_key u) k).
  - unfold conn_of_company at 1. simpl. rewrite E, K, IH.
    now destruct (key_eqb (u_key u) k).
Qed.

Lemma filter_plan_other (k : key) (hits : list json) (seen : list key) (us : list unit_plan) :
  (forall u, In u us -> In u (plan_from seen hits)) ->
  (forall u, In u us -> u_key u <> k) ->
  filter (conn_of_company k) (map conn_of (plan_entries us)) = [].
Proof.
  induction us as [|u us IH]; simpl; intros I N; [reflexivity|].
  rewrite map_app, filter_app, IH by auto.
  destruct (plan_from_in hits seen u (I u (or_introl eq_refl))) as [r [_ P]].
  rewrite (filter_unit_entries k r P).
  assert (key_eqb (u_key u) k = false) as -> by (apply key_eqb_neq; auto).
  reflexivity.
Qed.

(** ** Invariants of every state of a build *)

Lemma extends_refl (st : state) : extends st st.
Proof. split; eauto. Qed.

Lemma extends_same_maps (st st' : state) :
  companies (net st') = companies (net st) -> socios (net st') = socios (net st) ->
  extends st st'.
Proof. intros A B. unfold extends. rewrite A, B. split; eauto. Qed.

Lemma extends_trans (a b c : state) : extends a b -> extends b c -> extends a c.
Proof.
  intros [A1 A2] [B1 B2]. split; [auto|].
  intros k p G. destruct (A2 _ _ G) as [p' [G' [E1 E2]]].
  destruct (B2 _ _ G') as [p'' [G'' [F1 F2]]].
  exists p''. repeat split; congruence.
Qed.

Lemma good_init : good_world init_world.
Proof.
  split.
  - constructor; [|constructor]. split; [reflexivity|apply init_keys_processed].
  - constructor.
Qed.

Lemma good_push (g : state -> state) (w : world) :
  good_world w -> state_ok (g (cur w)) -> write_ok (cur w) (g (cur w)) ->
  good_world (push g w).
Proof.
  intros [F C] S W. split.
  - constructor; assumption.
  - unfold history, push. simpl. constructor; assumption.
Qed.

Lemma good_cur (w : world) : good_world w -> state_ok (cur w).
Proof. intros [F _]. now inversion F. Qed.

Lemma has_key_mono {V} (j : json) (d d' : dict V) :
  (forall k, dict_mem k d = true -> dict_mem k d' = true) ->
  has_key j d = true -> has_key j d' = true.
Proof. unfold has_key. destruct (py_key j); auto. Qed.

Lemma ref_ok_mono (n n' : network) :
  (forall k, dict_mem k (companies n) = true -> dict_mem k (companies n') = true) ->
  (forall k, dict_mem k (socios n) = true -> dict_mem k (socios n') = true) ->
  connections n' = connections n ->
  ref_ok n = true -> ref_ok n' = true.
Proof.
  intros A B C. unfold ref_ok. rewrite C, !forallb_forall.
  intros H c I. specialize (H c I). unfold edge_ok in *.
  apply andb_true_iff in H. destruct H as [H1 H2].
  apply andb_true_iff. split; eapply has_key_mono; eauto.
Qed.

Lemma good_add_processed (k : key) (w : world) :
  good_world w -> good_world (push (add_processed k) w).
Proof.
  intros G. destruct (good_cur G) as [R J]. apply good_push; auto.
  - split; [exact R|]. intros k' H. simpl. rewrite set_mem_add.
    rewrite (J k' H). apply orb_true_r.
  - split; [now left|now apply extends_same_maps].
Qed.

Lemma good_set_company (k : key) (e : company_entry) (w : world) :
  good_world w ->
  set_mem k (processed_cnpjs (cur w)) = true ->
  dict_mem k (companies (net (cur w))) = false ->
  good_world (push (set_company k e) w).
Proof.
  intros G S N. destruct (good_cur G) as [R J]. apply good_push; auto.
  - split.
    + eapply ref_ok_mono; [| | |exact R]; simpl; auto.
      intros k' H. rewrite dict_mem_set, H. apply orb_true_r.
    + intros k' H. simpl in *. rewrite dict_mem_set in H.
      destruct (key_eqb k k') eqn:E; [|auto].
      apply key_eqb_eq in E. now subst.
  - split; [now left|]. split; simpl; [|eauto].
    intros k' e' H. rewrite dict_get_set.
    destruct (key_eqb k k') eqn:E; [|assumption].
    apply key_eqb_eq in E. subst. unfold dict_mem in N. now rewrite H in N.
Qed.

Lemma good_set_socio (k : key) (p : socio_entry) (w : world) :
  good_world w ->
  (forall p0, dict_get k (socios (net (cur w))) = Some p0 ->
              s_cpf p = s_cpf p0 /\ s_nome p = s_nome p0) ->
  good_world (push (set_socio k p) w).
Proof.
  intros G N. destruct (good_cur G) as [R J]. apply good_push; auto.
  - split; [|exact J].
    eapply ref_ok_mono; [| | |exact R]; simpl; auto.
    intros k' H. rewrite dict_mem_set, H. apply orb_true_r.
  - split; [now left|]. split; simpl; [auto|].
    intros k' p' H. rewrite dict_get_set.
    destruct (key_eqb k k') eqn:E; [|eauto].
    apply key_eqb_eq in E. subst. destruct (N _ H). eauto.
Qed.

Lemma good_append_connection (c : connection) (w : world) :
  good_world w -> edge_ok (net (cur w)) c = true ->
  good_world (push (append_connection c) w).
Proof.
  intros G E. destruct (good_cur G) as [R J]. apply good_push; auto.
  - split; [|exact J]. unfold ref_ok in *. simpl.
    rewrite forallb_app. simpl. unfold edge_ok in *. simpl.
    now rewrite R, E.
  - split; [right; exists c; split; [reflexivity|assumption]|now apply extends_same_maps].
Qed.

Lemma good_apply_entry (cnpj : json) (e : entry) (w : world) :
  good_world w -> entry_wf cnpj e ->
  has_key cnpj (companies (net (cur w))) = true ->
  good_world (apply_entry e w).
Proof.
  intros G [E K] H. unfold apply_entry.
  assert (G1 : good_world (ensure_socio e w) /\
               dict_mem (en_key e) (socios (net (cur (ensure_socio e w)))) = true /\
               companies (net (cur (ensure_socio e w))) = companies (net (cur w))).
  { unfold ensure_socio.
    destruct (dict_mem (en_key e) (socios (net (cur w)))) eqn:D; [auto|].
    split; [|split; [|reflexivity]].
    - apply good_set_socio; [assumption|]. intros p0 F.
      unfold dict_mem in D. now rewrite F in D.
    - simpl. rewrite dict_mem_set, key_eqb_refl. reflexivity. }
  destruct G1 as [G1 [D1 C1]]. set (w1 := ensure_socio e w) in *.
  assert (G2 : good_world (push (append_connection (conn_of e)) w1)).
  { apply good_append_connection; [assumption|].
    unfold edge_ok. simpl. rewrite C1, E, H. simpl.
    unfold has_key. now rewrite K. }
  unfold link_company. simpl.
  destruct (dict_get (en_key e) (socios (net (cur w1)))) as [p|] eqn:F; [|assumption].
  apply good_set_socio; [assumption|]. simpl. intros p0 F0.
  assert (p0 = p) by congruence. subst. auto.
Qed.

Lemma good_apply_entries (cnpj : json) (es : list entry) (w : world) :
  good_world w -> Forall (entry_wf cnpj) es ->
  has_key cnpj (companies (net (cur w))) = true ->
  good_world (apply_entries es w).
Proof.
  intros G W. revert w G. induction W as [|e es We W IH]; intros w G H; simpl; [assumption|].
  apply IH.
  - eapply good_apply_entry; eauto.
  - rewrite apply_entry_cur. exact H.
Qed.

Lemma good_process_company (r : json) (w : world) :
  good_world w -> good_world (snd (process_company r w)).
Proof.
  intros G. rewrite process_company_run. unfold read_id.
  destruct (Py.getitem r "cnpj") as [cnpj|x]; simpl; [|assumption].
  destruct (py_key cnpj) as [k|x] eqn:K; simpl; [|assumption].
  destruct (set_mem k (processed_cnpjs (cur w))) eqn:S; [assumption|].
  pose proof (good_add_processed k G) as G1.
  destruct (read_company cnpj r) as [ce|x]; simpl; [|assumption].
  assert (G2 : good_world (push (set_company k ce) (push (add_processed k) w))).
  { apply good_set_company; [assumption| |]; simpl.
    - now rewrite set_mem_add, key_eqb_refl.
    - destruct (good_cur G) as [_ J].
      destruct (dict_mem k (companies (net (cur w)))) eqn:D; [|reflexivity].
      rewrite (J k D) in S. discriminate. }
  destruct (read_socios_list r) as [l|x]; simpl; [|assumption].
  apply good_apply_entries with (cnpj := cnpj); [assumption|apply scan_socios_wf|].
  simpl. unfold has_key. rewrite K, dict_mem_set, key_eqb_refl. reflexivity.
Qed.

Lemma good_for_each_companies (hits : list json) (w : world) :
  good_world w -> good_world (snd (for_each hits process_company w)).
Proof.
  revert w. induction hits as [|r hits IH]; intros w G; simpl; [assumption|].
  unfold bind. pose proof (good_process_company r G) as G1.
  destruct (process_company r w) as [[[]|x] w1]; simpl in *; auto.
Qed.

Lemma good_build_network (post : collaborator) (q : string) (d : Z) :
  good_world (snd (build_network post q d init_world)).
Proof.
  unfold build_network, bind, lift, get_state, ret.
  destruct (search_companies post q 10) as [v|x]; simpl; [|apply good_init].
  destruct (Py.len v); simpl; [|apply good_init].
  destruct (Py.iter v) as [l|x]; simpl; [|apply good_init].
  pose proof (good_for_each_companies l good_init) as G.
  destruct (for_each l process_company init_world) as [[[]|x] w1]; simpl in *; assumption.
Qed.

Lemma build_network_returns (post : collaborator) (q : string) (d : Z) (n : network) :
  build post q d = Ok n ->
  n = net (cur (snd (build_network post q d init_world))).
Proof.
  unfold build, build_network, bind, lift, get_state, ret.
  destruct (search_companies post q 10) as [v|x]; simpl; [|discriminate].
  destruct (Py.len v); simpl; [|discriminate].
  destruct (Py.iter v) as [l|x]; simpl; [|discriminate].
  destruct (for_each l process_company init_world) as [[[]|x] w1]; simpl; [|discriminate].
  intros H. now inversion H.
Qed.

(** ** Histories in chronological order *)

Lemma chain_suffix (R : state -> state -> Prop) (l1 l2 : list state) :
  chain R (l1 ++ l2) -> chain R l2.
Proof.
  induction l1 as [|a l1 IH]; simpl; [auto|].
  intros C. apply IH. inversion C as [| s E | newer older l r c E]; subst.
  - destruct l1; [|discriminate]. simpl in *. subst. constructor.
  - assumption.
Qed.

Lemma chain_neighbours (R : state -> state -> Prop) (l1 l2 : list state)
    (newer older : state) :
  chain R (l1 ++ newer :: older :: l2) -> R older newer.
Proof.
  intros C. apply chain_suffix in C. now inversion C.
Qed.

Lemma chain_extends (l : list state) (newer : state) :
  chain write_ok (newer :: l) -> Forall (fun older => extends older newer) l.
Proof.
  revert newer. induction l as [|older l IH]; intros newer C; [constructor|].
  inversion C as [| |? ? ? W C']; subst. destruct W as [_ E].
  constructor; [assumption|].
  eapply Forall_impl; [|apply IH; exact C'].
  intros a Ea. simpl in Ea. eapply extends_trans; eassumption.
Qed.

Lemma trace_neighbours (w : world) (l1 l2 : list state) (s s' : state) :
  good_world w -> rev (history w) = (l1 ++ s :: s' :: l2)%list -> step_ok s s'.
Proof.
  intros [_ C] E.
  assert (H : history w = (rev l2 ++ s' :: s :: rev l1)%list).
  { rewrite <- (rev_involutive (history w)), E, rev_app_distr. simpl.
    rewrite <- !app_assoc. reflexivity. }
  rewrite H in C. apply chain_neighbours in C. exact (proj1 C).
Qed.

Lemma trace_extends (w : world) (l1 l2 : list state) (s s' : state) :
  good_world w -> rev (history w) = (l1 ++ s :: l2)%list -> In s' l2 -> extends s s'.
Proof.
  intros [_ C] E I.
  apply in_split in I. destruct I as [l3 [l4 ->]].
  assert (H : history w = (rev l4 ++ s' :: (rev l3 ++ s :: rev l1))%list).
  { rewrite <- (rev_involutive (history w)), E, rev_app_distr. simpl.
    rewrite rev_app_distr. simpl. rewrite <- !app_assoc. reflexivity. }
  rewrite H in C. apply chain_suffix in C. apply chain_extends in C.
  rewrite Forall_forall in C. apply C. apply in_or_app. right. now left.
Qed.

Lemma trace_extends_final (w : world) (st : state) :
  good_world w -> In st (history w) -> extends st (cur w).
Proof.
  intros [_ C] [<-|I]; [apply extends_refl|].
  apply chain_extends in C. rewrite Forall_forall in C. auto.
Qed.

(** ** Partners as a function of the entries *)

Lemma merge_some (p : socio_entry) (es : list entry) :
  merge (Some p) es =
  Some {| s_cpf := s_cpf p; s_nome := s_nome p;
          s_companies := s_companies p ++ map en_cnpj es |}.
Proof.
  revert p. induction es as [|e es IH]; intros p; simpl.
  - rewrite app_nil_r. now destruct p.
  - rewrite IH. simpl. now rewrite <- app_assoc.
Qed.

Lemma merge_none (e : entry) (es : list entry) :
  merge None (e :: es) =
  Some {| s_cpf := en_cpf e; s_nome := en_nome e; s_companies := map en_cnpj (e :: es) |}.
Proof. simpl. now rewrite merge_some. Qed.

Lemma upsert_get (k : key) (e : entry) (d : dict socio_entry) :
  dict_get k (upsert e d) =
  if entry_of_socio k e then merge (dict_get k d) [e] else dict_get k d.
Proof.
  unfold upsert, entry_of_socio. rewrite dict_get_set.
  destruct (key_eqb (en_key e) k) eqn:E; [|reflexivity].
  apply key_eqb_eq in E. subst. reflexivity.
Qed.

Lemma fold_upsert_get (k : key) (es : list entry) (d : dict socio_entry) :
  dict_get k (fold_left (fun d e => upsert e d) es d) =
  merge (dict_get k d) (filter (entry_of_socio k) es).
Proof.
  revert d. induction es as [|e es IH]; intros d; simpl; [reflexivity|].
  rewrite IH, upsert_get. destruct (entry_of_socio k e); reflexivity.
Qed.

Lemma filter_conn_of_socio (k : key) (es : list entry) :
  Forall (fun e => py_key (en_cpf e) = Ok (en_key e)) es ->
  filter (conn_of_socio k) (map conn_of es) = map conn_of (filter (entry_of_socio k) es).
Proof.
  induction 1 as [|e es K W IH]; simpl; [reflexivity|].
  unfold conn_of_socio at 1, entry_of_socio at 1. simpl. rewrite K, IH.
  now destruct (key_eqb (en_key e) k).
Qed.

Lemma plan_entries_wf (hits : list json) (seen : list key) :
  Forall (fun e => py_key (en_cpf e) = Ok (en_key e)) (plan_entries (plan_from seen hits)).
Proof.
  apply Forall_forall. intros e I. unfold plan_entries in I.
  apply in_flat_map in I. destruct I as [u [Iu Ie]].
  destruct (plan_from_in _ _ _ Iu) as [r [_ P]].
  destruct (record_plan_wf r P) as [_ [_ [_ [_ [W _]]]]].
  rewrite Forall_forall in W. now destruct (W e Ie).
Qed.

(** ** The descending stable sort *)

Section SortedDescFacts.

Variables A K : Type.
Variable ltb : K -> K -> bool.
Variable f : A -> K.

Hypothesis ltb_asym : forall a b, ltb a b = true -> ltb b a = false.
Hypothesis geb_trans :
  forall a b c, ltb a b = false -> ltb b c = false -> ltb a c = false.

(** [desc a b]: [a] may stand before [b] in a descending ranking. *)
Definition desc (a b : A) : Prop := ltb (f a) (f b) = false.

Lemma insert_desc_perm (x : A) (l : list A) :
  Permutation (insert_desc ltb f x l) (x :: l).
Proof.
  induction l as [|y l IH]; simpl; [reflexivity|].
  destruct (ltb (f x) (f y)); [|reflexivity].
  rewrite IH. apply perm_swap.
Qed.

Lemma sorted_desc_perm (l : list A) : Permutation (sorted_desc ltb f l) l.
Proof.
  induction l as [|x l IH]; simpl; [reflexivity|].
  rewrite insert_desc_perm. now constructor.
Qed.

Lemma sorted_desc_length (l : list A) :
  List.length (sorted_desc ltb f l) = List.length l.
Proof. apply Permutation_length, sorted_desc_perm. Qed.

Lemma insert_desc_sorted (x : A) (l : list A) :
  StronglySorted desc l -> StronglySorted desc (insert_desc ltb f x l).
Proof.
  induction 1 as [|y l S IH F]; simpl.
  - constructor; constructor.
  - destruct (ltb (f x) (f y)) eqn:E.
    + constructor; [assumption|].
      eapply Permutation_Forall; [symmetry; apply insert_desc_perm|].
      constructor; [now apply ltb_asym|assumption].
    + constructor; [now constructor|].
      constructor; [exact E|].
      eapply Forall_impl; [|exact F]. unfold desc. intros a Ha.
      exact (geb_trans E Ha).
Qed.

Lemma sorted_desc_sorted (l : list A) : StronglySorted desc (sorted_desc ltb f l).
Proof.
  induction l as [|x l IH]; simpl; [constructor|]. now apply insert_desc_sorted.
Qed.

(** Items whose keys are in one class of equal keys keep their
    order. *)
Section Stable.

Variable p : K -> bool.
Hypothesis p_class : forall a b, p a = true -> p b = true -> ltb a b = false.

Lemma insert_desc_stable (x : A) (l : list A) :
  filter (fun y => p (f y)) (insert_desc ltb f x l) = filter (fun y => p (f y)) (x :: l).
Proof.
  induction l as [|y l IH]; simpl; [reflexivity|].
  destruct (ltb (f x) (f y)) eqn:E; [|reflexivity].
  simpl in *. rewrite IH.
  destruct (p (f x)) eqn:X, (p (f y)) eqn:Y; try reflexivity.
  rewrite (p_class X Y) in E. discriminate.
Qed.

Lemma sorted_desc_stable (l : list A) :
  filter (fun y => p (f y)) (sorted_desc ltb f l) = filter (fun y => p (f y)) l.
Proof.
  induction l as [|x l IH]; simpl; [reflexivity|].
  rewrite insert_desc_stable. simpl. now rewrite IH.
Qed.

Lemma top10_stable (l : list A) :
  exists tail,
    filter (fun y => p (f y)) l =
    (filter (fun y => p (f y)) (firstn 10 (sorted_desc ltb f l)) ++ tail)%list.
Proof.
  exists (filter (fun y => p (f y)) (skipn 10 (sorted_desc ltb f l))).
  rewrite <- filter_app, firstn_skipn. symmetry. apply sorted_desc_stable.
Qed.

End Stable.

Lemma in_firstn (n : nat) (l : list A) (x : A) : In x (firstn n l) -> In x l.
Proof.
  intros I. rewrite <- (firstn_skipn n l). apply in_or_app. now left.
Qed.

Lemma firstn_sorted (R : A -> A -> Prop) (n : nat) (l : list A) :
  StronglySorted R l -> StronglySorted R (firstn n l).
Proof.
  intros S. revert n. induction S as [|x l S IH F]; intros [|n]; simpl; try constructor.
  - apply IH.
  - rewrite Forall_forall in *. intros y I. apply F. eapply in_firstn; eauto.
Qed.

(** The ranking: the first ten items of the sorted list.  It is
    sorted, it holds [min 10 (length l)] items of [l], and no item left
    out has a larger key than an item kept. *)
Lemma top10_spec (l : list A) :
  let top := firstn 10 (sorted_desc ltb f l) in
  StronglySorted desc top /\
  List.length top = Nat.min 10 (List.length l) /\
  (forall x, In x top -> In x l) /\
  (forall x y, In x top -> In y (skipn 10 (sorted_desc ltb f l)) -> desc x y).
Proof.
  cbv zeta. repeat split.
  - apply firstn_sorted, sorted_desc_sorted.
  - now rewrite length_firstn, sorted_desc_length.
  - intros x I. eapply Permutation_in; [apply sorted_desc_perm|].
    eapply in_firstn; eauto.
  - intros x y Ix Iy.
    pose proof (sorted_desc_sorted l) as S.
    rewrite <- (firstn_skipn 10 (sorted_desc ltb f l)) in S.
    revert Ix Iy S. generalize (firstn 10 (sorted_desc ltb f l)) as top.
    generalize (skipn 10 (sorted_desc ltb f l)) as out.
    intros out top. induction top as [|a top IH]; simpl; [tauto|].
    intros [->|Ix] Iy S; inversion S as [|? ? S' F]; subst.
    + rewrite Forall_forall in F. apply (F y). apply in_or_app. now right.
    + auto.
Qed.

Lemma top10_largest (l : list A) :
  exists rest,
    Permutation (firstn 10 (sorted_desc ltb f l) ++ rest) l /\
    forall x y, In x (firstn 10 (sorted_desc ltb f l)) -> In y rest -> desc x y.
Proof.
  exists (skipn 10 (sorted_desc ltb f l)). split.
  - rewrite firstn_skipn. apply sorted_desc_perm.
  - apply (top10_spec l).
Qed.

Lemma top10_small (l : list A) :
  (List.length l <= 10)%nat -> firstn 10 (sorted_desc ltb f l) = sorted_desc ltb f l.
Proof. intros H. apply firstn_all2. now rewrite sorted_desc_length. Qed.

End SortedDescFacts.

Lemma StronglySorted_weaken {A} (R R' : A -> A -> Prop) (P : A -> Prop) (l : list A) :
  (forall a b, P a -> P b -> R a b -> R' a b) ->
  Forall P l -> StronglySorted R l -> StronglySorted R' l.
Proof.
  intros W F S. induction S as [|x l S IH Fx]; [constructor|].
  inversion F as [|? ? Px Pl]; subst. constructor; [auto|].
  rewrite Forall_forall in *. auto.
Qed.

(** *** Integer keys *)

Lemma Zltb_asym (a b : Z) : (a <? b) = true -> (b <? a) = false.
Proof. rewrite Z.ltb_lt, Z.ltb_ge. lia. Qed.

Lemma Zgeb_trans (a b c : Z) : (a <? b) = false -> (b <? c) = false -> (a <? c) = false.
Proof. rewrite !Z.ltb_ge. lia. Qed.

Lemma Zeqb_class (v a b : Z) : (a =? v) = true -> (b =? v) = true -> (a <? b) = false.
Proof. rewrite !Z.eqb_eq, Z.ltb_ge. lia. Qed.

(** *** Numbers *)

Lemma number_ltb_le (a b : number) : number_ltb a b = false <-> number_le b a.
Proof.
  destruct a as [|p|], b as [|q|]; simpl; try tauto; try (split; [discriminate|tauto]).
  rewrite negb_false_iff. apply Qle_bool_iff.
Qed.

Lemma number_le_total (a b : number) : number_le a b \/ number_le b a.
Proof.
  destruct a as [|p|], b as [|q|]; simpl; auto.
  destruct (Qlt_le_dec p q) as [H|H]; [left; now apply Qlt_le_weak|now right].
Qed.

Lemma number_le_trans (a b c : number) : number_le a b -> number_le b c -> number_le a c.
Proof.
  destruct a as [|p|], b as [|q|], c as [|r|]; simpl; try tauto.
  apply Qle_trans.
Qed.

Lemma number_ltb_asym (a b : number) : number_ltb a b = true -> number_ltb b a = false.
Proof.
  intros H. apply number_ltb_le. destruct (number_le_total a b) as [L|L]; [exact L|].
  apply number_ltb_le in L. congruence.
Qed.

Lemma number_geb_trans (a b c : number) :
  number_ltb a b = false -> number_ltb b c = false -> number_ltb a c = false.
Proof.
  rewrite !number_ltb_le. intros H1 H2. eapply number_le_trans; eauto.
Qed.

Lemma number_eqb_le (a b : number) : number_eqb a b = true <-> number_le a b /\ number_le b a.
Proof.
  destruct a as [|p|], b as [|q|]; simpl; try tauto;
    try (split; [discriminate|tauto]).
  rewrite Qeq_bool_iff. split.
  - intros E. rewrite E. split; apply Qle_refl.
  - intros [H1 H2]. now apply Qle_antisym.
Qed.

Lemma number_eqb_class (v a b : number) :
  number_eqb a v = true -> number_eqb b v = true -> number_ltb a b = false.
Proof.
  rewrite !number_eqb_le, number_ltb_le. intros [_ H1] [H2 _].
  eapply number_le_trans; eauto.
Qed.

Lemma number_eqb_congr (a b v : number) :
  number_eqb a b = true -> number_eqb a v = number_eqb b v.
Proof.
  intros E. apply number_eqb_le in E. destruct E as [E1 E2].
  destruct (number_eqb b v) eqn:B.
  - apply number_eqb_le in B. destruct B as [B1 B2]. apply number_eqb_le.
    split; eapply number_le_trans; eauto.
  - destruct (number_eqb a v) eqn:Av; [|reflexivity].
    apply number_eqb_le in Av. destruct Av as [A1 A2].
    assert (number_eqb b v = true); [|congruence].
    apply number_eqb_le. split; eapply number_le_trans; eauto.
Qed.

Lemma all_ok_forall {A B} (f : A -> result B) (l : list A) :
  all_ok f l = Ok tt <-> Forall (fun x => exists b, f x = Ok b) l.
Proof.
  induction l as [|x l IH]; simpl.
  - split; auto.
  - destruct (f x) as [b|e] eqn:E; simpl.
    + rewrite IH. split; intros H; [constructor; eauto|now inversion H].
    + split; [discriminate|]. intros H. inversion H as [|? ? Hx ?].
      destruct Hx as [b Hb]. congruence.
Qed.

(** ** The lookups *)

Lemma search_companies_failure (post : collaborator) (q : string) (limit : Z)
    (resp : response) :
  post (JObj [("q", JStr q); ("limit", JNum limit)]) = Ok resp ->
  status_code resp <> 200 ->
  search_companies post q limit = Ok (JArr []).
Proof.
  intros P S. unfold search_companies. rewrite P. simpl.
  apply Z.eqb_neq in S. now rewrite S.
Qed.

Lemma len_zero_iter (v : json) : Py.len v = Ok 0%nat -> Py.iter v = Ok [].
Proof.
  destruct v as [| | | |s|l|m]; simpl; try discriminate; intros H; inversion H as [E].
  - destruct s; [reflexivity|discriminate].
  - destruct l; [reflexivity|discriminate].
  - destruct m; [reflexivity|discriminate].
Qed.

Lemma build_no_hits (post : collaborator) (q : string) (d : Z) (v : json) :
  search_companies post q 10 = Ok v -> Py.len v = Ok 0%nat ->
  build_network post q d init_world = (Ok empty_network, init_world).
Proof.
  intros S L. rewrite (build_network_run post q d S (len_zero_iter v L)). reflexivity.
Qed.

(** C5 as stated does not hold: a success status with a body that
    cannot be decoded makes the seed lookup raise, and the build with
    it. *)
Lemma C5_counterexample :
  Replies.garbled (JObj [("q", JStr "acme"); ("limit", JNum 10)]) =
    Ok {| status_code := 200; json_body := Raise JSONDecodeError |} /\
  search_companies Replies.garbled "acme" 10 = Raise JSONDecodeError /\
  build Replies.garbled "acme" 2 = Raise JSONDecodeError.
Proof. repeat split. Qed.

(** C5 (amended): whatever the body, a response with a status other
    than 200 makes the seed lookup return the empty list instead of
    raising, and the build then returns the empty network. *)
Theorem C5_failure_status_is_no_results (post : collaborator) (q : string) (d : Z)
    (resp : response) :
  post (JObj [("q", JStr q); ("limit", JNum 10)]) = Ok resp ->
  status_code resp <> 200 ->
  search_companies post q 10 = Ok (JArr []) /\
  build post q d = Ok empty_network.
Proof.
  intros P S. pose proof (search_companies_failure post q 10 P S) as E.
  split; [exact E|]. unfold build.
  now rewrite (build_no_hits post q d E eq_refl).
Qed.

Lemma C5_failure_status_is_no_results_witness :
  search_companies Replies.unavailable "acme" 10 = Ok (JArr []) /\
  build Replies.unavailable "acme" 2 = Ok empty_network.
Proof.
  apply (C5_failure_status_is_no_results Replies.unavailable "acme" 2
           (resp := {| status_code := 503; json_body := Raise JSONDecodeError |})).
  - reflexivity.
  - discriminate.
Defined.

(** C10: the lookup by identifier returns the first hit of a
    successful response with a non-empty hit list, and [None], without
    raising, for an empty hit list and for any other status. *)
Theorem C10_get_company_by_cnpj (post : collaborator) (cnpj : string) (resp : response) :
  post (JObj [("filter", JStr ("cnpj = " ++ cnpj)); ("limit", JNum 1)]) = Ok resp ->
  (forall body first others,
     status_code resp = 200 -> json_body resp = Ok (JObj body) ->
     Py.lookup "hits" body = Some (JArr (first :: others)) ->
     get_company_by_cnpj post cnpj = Ok first) /\
  (forall body,
     status_code resp = 200 -> json_body resp = Ok (JObj body) ->
     Py.lookup "hits" body = Some (JArr []) ->
     get_company_by_cnpj post cnpj = Ok JNull) /\
  (status_code resp <> 200 -> get_company_by_cnpj post cnpj = Ok JNull).
Proof.
  intros P. unfold get_company_by_cnpj. rewrite P. simpl. repeat split.
  - intros body first others S B H. rewrite S, B. simpl. now rewrite H.
  - intros body S B H. rewrite S, B. simpl. now rewrite H.
  - intros S. apply Z.eqb_neq in S. now rewrite S.
Qed.

Lemma C10_get_company_by_cnpj_witness :
  get_company_by_cnpj (Scenario.answer [Scenario.first_a; Scenario.second_a]) "A"
    = Ok Scenario.first_a /\
  get_company_by_cnpj Replies.nothing "A" = Ok JNull /\
  get_company_by_cnpj Replies.unavailable "A" = Ok JNull.
Proof.
  split; [|split].
  - apply (C10_get_company_by_cnpj (Scenario.answer [Scenario.first_a; Scenario.second_a]) "A"
             (resp := {| status_code := 200;
                         json_body := Ok (JObj [("hits", JArr [Scenario.first_a; Scenario.second_a])]) |})
             eq_refl) with (others := [Scenario.second_a])
                           (body := [("hits", JArr [Scenario.first_a; Scenario.second_a])]);
      reflexivity.
  - apply (C10_get_company_by_cnpj Replies.nothing "A"
             (resp := {| status_code := 200; json_body := Ok (JObj [("hits", JArr [])]) |})
             eq_refl) with (body := [("hits", JArr [])]); reflexivity.
  - apply (C10_get_company_by_cnpj Replies.unavailable "A"
             (resp := {| status_code := 503; json_body := Raise JSONDecodeError |}) eq_refl).
    discriminate.
Defined.

(** ** The analyzer *)

(** C8: when the seed lookup returns zero results, the build returns
    the empty network without passing through any other state, and the
    analysis of the empty network is three empty rankings. *)
Theorem C8_no_results (post : collaborator) (q : string) (d : Z) (v : json) :
  search_companies post q 10 = Ok v -> Py.len v = Ok 0%nat ->
  build post q d = Ok empty_network /\
  build_trace post q d = [init_state] /\
  analyze_network empty_network = Ok no_results.
Proof.
  intros S L. unfold build, build_trace.
  rewrite (build_no_hits post q d S L). repeat split.
Qed.

Lemma C8_no_results_witness :
  build Replies.nothing "" 0 = Ok empty_network /\
  build_trace Replies.nothing "" 0 = [init_state] /\
  analyze_network empty_network = Ok no_results.
Proof.
  apply (C8_no_results Replies.nothing "" 0 (v := JArr [])); reflexivity.
Defined.

(** C6 fails on the code: [build_network] stores [None] as the name
    of a partner whose entry has no [nome], and [analyze_network]
    raises [TypeError] on that network when it prints the first
    ranking. *)
Theorem C6_nameless_partner_raises :
  build (Scenario.answer [Scenario.nameless]) "acme" 2 = Ok nameless_network /\
  analyze_network nameless_network = Raise TypeError.
Proof. split; reflexivity. Qed.

(** *** Rankings by a count *)

Lemma count_ranking {A} (g : A -> nat) (l : list A) :
  exists rest,
    let top := firstn 10 (sorted_desc Z.ltb (fun x => Z.of_nat (g x)) l) in
    StronglySorted (fun a b => (g b <= g a)%nat) top /\
    List.length top = Nat.min 10 (List.length l) /\
    Permutation (top ++ rest) l /\
    (forall x y, In x top -> In y rest -> (g y <= g x)%nat) /\
    (forall v, filter (fun x => (g x =? v)%nat) l =
               (filter (fun x => (g x =? v)%nat) top ++
                filter (fun x => (g x =? v)%nat) rest)%list) /\
    ((List.length l <= 10)%nat -> rest = []).
Proof.
  exists (skipn 10 (sorted_desc Z.ltb (fun x => Z.of_nat (g x)) l)). cbv zeta.
  destruct (@top10_spec A Z Z.ltb (fun x => Z.of_nat (g x)) Zltb_asym Zgeb_trans l)
    as [S [L [I D]]].
  assert (W : forall a b : A, desc Z.ltb (fun x => Z.of_nat (g x)) a b -> (g b <= g a)%nat).
  { unfold desc. intros a b H. apply Z.ltb_ge in H. lia. }
  split; [|split; [|split; [|split; [|split]]]].
  - eapply (@StronglySorted_weaken A _ _ (fun _ => True)); [| |exact S].
    + intros a b _ _. apply W.
    + apply Forall_forall. auto.
  - exact L.
  - rewrite firstn_skipn. apply sorted_desc_perm.
  - intros x y Ix Iy. apply W. now apply D.
  - intros v. rewrite <- filter_app, firstn_skipn.
    assert (E : forall m : list A,
              filter (fun x => (g x =? v)%nat) m =
              filter (fun x => Z.of_nat (g x) =? Z.of_nat v) m).
    { intros m. apply filter_ext. intros x.
      destruct (Nat.eqb_spec (g x) v) as [->|N].
      - now rewrite Z.eqb_refl.
      - symmetry. apply Z.eqb_neq. lia. }
    rewrite !E. symmetry.
    apply (@sorted_desc_stable A Z Z.ltb (fun x => Z.of_nat (g x))
             (fun k => k =? Z.of_nat v)).
    intros a b. apply Zeqb_class.
  - intros H. apply skipn_all2. now rewrite sorted_desc_length.
Qed.

(** *** The ranking by capital *)

Lemma dyadic_zero (s : bool) (e : Z) : (dyadic s 0 e == 0)%Q.
Proof.
  unfold dyadic, signed. destruct (0 <=? e), s; reflexivity.
Qed.

Lemma capital_key_number (x : key * company_entry) :
  number_or_null (c_capital_social (snd x)) = true ->
  is_number (capital_key x) = true /\
  number_eqb (number_key (capital_key x)) (capital_number (snd x)) = true.
Proof.
  unfold capital_key, capital_number, capital_or_0, is_number, number_key.
  destruct (c_capital_social (snd x)) as [|b|z|[s m e|s|o]|s|l|m];
    try discriminate; intros _.
  - split; reflexivity.
  - destruct b; split; reflexivity.
  - cbn [Py.truthy]. destruct (Z.eqb_spec z 0) as [->|N]; cbn [negb number_of].
    + split; reflexivity.
    + split; [reflexivity|]. apply Qeq_bool_refl.
  - cbn [Py.truthy]. destruct (N.eqb_spec m 0) as [->|N]; cbn [negb number_of].
    + split; [reflexivity|]. cbn [number_eqb]. apply Qeq_bool_iff.
      symmetry. apply dyadic_zero.
    + split; [reflexivity|]. apply Qeq_bool_refl.
  - destruct s; split; reflexivity.
Qed.

Lemma capital_desc (a b : key * company_entry) :
  number_or_null (c_capital_social (snd a)) = true ->
  number_or_null (c_capital_social (snd b)) = true ->
  desc number_ltb (fun x => number_key (capital_key x)) a b ->
  number_le (capital_number (snd b)) (capital_number (snd a)).
Proof.
  intros Na Nb D. unfold desc in D. apply number_ltb_le in D.
  destruct (capital_key_number a Na) as [_ Ea].
  destruct (capital_key_number b Nb) as [_ Eb].
  apply number_eqb_le in Ea, Eb. destruct Ea as [Ea _], Eb as [_ Eb].
  eapply number_le_trans; [exact Eb|]. eapply number_le_trans; eauto.
Qed.

Lemma capital_class (v : number) (x : key * company_entry) :
  number_or_null (c_capital_social (snd x)) = true ->
  number_eqb (capital_number (snd x)) v = number_eqb (number_key (capital_key x)) v.
Proof.
  intros N. symmetry. apply number_eqb_congr. now apply capital_key_number.
Qed.

Lemma sorted_reverse_numbers {A} (key : A -> json) (l : list A) :
  forallb (fun x => is_number (key x)) l = true ->
  sorted_reverse key l = Ok (sorted_desc number_ltb (fun x => number_key (key x)) l).
Proof.
  destruct l as [|x [|y l]]; [reflexivity|reflexivity|].
  intros H. unfold sorted_reverse. now rewrite H.
Qed.

Lemma rank_companies_by_capital_numbers (n : network) :
  Forall (fun x => number_or_null (c_capital_social (snd x)) = true) (companies n) ->
  rank_companies_by_capital n =
  Ok (firstn 10 (sorted_desc number_ltb (fun x => number_key (capital_key x))
                   (companies n))).
Proof.
  intros F. unfold rank_companies_by_capital.
  rewrite sorted_reverse_numbers; [reflexivity|].
  apply forallb_forall. rewrite Forall_forall in F.
  intros x I. now apply capital_key_number, F.
Qed.

(** The capital ranking, when every capital is [None] or a number:
    what it holds, in which order, and what it leaves out. *)
Lemma capital_ranking (n : network) :
  Forall (fun x => number_or_null (c_capital_social (snd x)) = true) (companies n) ->
  exists l rest,
    rank_companies_by_capital n = Ok l /\
    StronglySorted
      (fun a b => number_le (capital_number (snd b)) (capital_number (snd a))) l /\
    List.length l = Nat.min 10 (List.length (companies n)) /\
    Permutation (l ++ rest) (companies n) /\
    (forall x y, In x l -> In y rest ->
                 number_le (capital_number (snd y)) (capital_number (snd x))) /\
    (forall v, filter (fun x => number_eqb (capital_number (snd x)) v) (companies n) =
               (filter (fun x => number_eqb (capital_number (snd x)) v) l ++
                filter (fun x => number_eqb (capital_number (snd x)) v) rest)%list) /\
    ((List.length (companies n) <= 10)%nat -> rest = []).
Proof.
  intros F.
  set (f := fun x : key * company_entry => number_key (capital_key x)).
  exists (firstn 10 (sorted_desc number_ltb f (companies n))),
         (skipn 10 (sorted_desc number_ltb f (companies n))).
  destruct (@top10_spec _ _ number_ltb f number_ltb_asym number_geb_trans (companies n))
    as [S [L [I D]]].
  assert (P : Permutation (sorted_desc number_ltb f (companies n)) (companies n))
    by apply sorted_desc_perm.
  assert (Fs : Forall (fun x => number_or_null (c_capital_social (snd x)) = true)
                 (sorted_desc number_ltb f (companies n))).
  { eapply Permutation_Forall; [symmetry; exact P|exact F]. }
  rewrite <- (firstn_skipn 10 (sorted_desc number_ltb f (companies n))) in Fs.
  apply Forall_app in Fs. destruct Fs as [Ft Fr].
  split; [now apply rank_companies_by_capital_numbers|].
  split; [|split; [|split; [|split; [|split]]]].
  - eapply (@StronglySorted_weaken _ _ _
              (fun x => number_or_null (c_capital_social (snd x)) = true));
      [|exact Ft|exact S].
    intros a b Na Nb. now apply capital_desc.
  - exact L.
  - now rewrite firstn_skipn.
  - intros x y Ix Iy. rewrite Forall_forall in Ft, Fr.
    apply capital_desc; auto.
  - intros v. rewrite <- filter_app, firstn_skipn.
    assert (E : forall m : list (key * company_entry),
              Forall (fun x => number_or_null (c_capital_social (snd x)) = true) m ->
              filter (fun x => number_eqb (capital_number (snd x)) v) m =
              filter (fun x => number_eqb (f x) v) m).
    { intros m Fm. apply filter_ext_in. rewrite Forall_forall in Fm.
      intros x Ix. now apply capital_class, Fm. }
    rewrite (E _ F), E by (eapply Permutation_Forall; [symmetry; exact P|exact F]).
    symmetry.
    apply (@sorted_desc_stable _ _ number_ltb f (fun k => number_eqb k v)).
    intros a b. apply number_eqb_class.
  - intros H. apply skipn_all2. now rewrite sorted_desc_length.
Qed.

(** *** What the analyzer prints *)

Lemma printable_capital_number (v : json) :
  printable_capital v = true -> number_or_null v = true.
Proof. destruct v; simpl; auto. Qed.

Lemma format_capital_printable (v : json) :
  printable_capital v = true -> format_capital v = Ok tt.
Proof.
  unfold format_capital, capital_or_0.
  destruct v as [|b|z|[s m e|s|o]|s|l|m]; try discriminate.
  - reflexivity.
  - destruct b; reflexivity.
  - cbn [printable_capital Py.truthy]. intros H.
    destruct (Z.eqb_spec z 0) as [->|N]; cbn [negb]; [reflexivity|].
    unfold float_of_int. apply andb_true_iff in H. destruct H as [H1 H2].
    apply Z.ltb_lt in H1, H2.
    assert (A : (Z.abs z <? 2 ^ 1024 - 2 ^ 970) = true) by (apply Z.ltb_lt; lia).
    now rewrite A.
  - cbn [Py.truthy]. destruct (m =? 0)%N; reflexivity.
  - reflexivity.
Qed.

Lemma analyze_network_inv (n : network) (a : analysis) :
  analyze_network n = Ok a ->
  exists l, rank_companies_by_capital n = Ok l /\
    a = {| socios_by_companies := rank_socios_by_companies n;
           companies_by_socios := rank_companies_by_socios n;
           companies_by_capital := l |}.
Proof.
  intros H. unfold analyze_network in H. cbv zeta in H.
  destruct (all_ok (fun x => slice_pad (s_nome (snd x))) (rank_socios_by_companies n));
    [|discriminate].
  cbn [bbind] in H.
  destruct (all_ok (fun x => slice_pad (c_razao_social (snd x)))
              (rank_companies_by_socios n)); [|discriminate].
  cbn [bbind] in H.
  destruct (rank_companies_by_capital n) as [[l|x]|]; [|discriminate|discriminate].
  cbn [bbind] in H.
  destruct (all_ok _ l); [|discriminate].
  cbn [bbind] in H. inversion H. eauto.
Qed.

Lemma analyze_network_printable (n : network) :
  printable n -> exists a, analyze_network n = Ok a.
Proof.
  intros [Fs Fc]. unfold analyze_network.
  assert (A1 : all_ok (fun x => slice_pad (s_nome (snd x))) (rank_socios_by_companies n) = Ok tt).
  { apply all_ok_forall, Forall_forall. intros x I.
    apply (@top10_spec _ _ Z.ltb socios_key Zltb_asym Zgeb_trans (socios n)) in I.
    rewrite Forall_forall in Fs. specialize (Fs x I). simpl in Fs.
    destruct (s_nome (snd x)); try discriminate. simpl. eauto. }
  assert (A2 : all_ok (fun x => slice_pad (c_razao_social (snd x)))
                 (rank_companies_by_socios n) = Ok tt).
  { apply all_ok_forall, Forall_forall. intros x I.
    apply (@top10_spec _ _ Z.ltb socios_count_key Zltb_asym Zgeb_trans (companies n)) in I.
    rewrite Forall_forall in Fc. destruct (Fc x I) as [R _].
    destruct (c_razao_social (snd x)); try discriminate. simpl. eauto. }
  cbv zeta. rewrite A1. cbn [bbind]. rewrite A2. cbn [bbind].
  assert (Fn : Forall (fun x => number_or_null (c_capital_social (snd x)) = true)
                 (companies n)).
  { eapply Forall_impl; [|exact Fc]. intros x [_ H]. now apply printable_capital_number. }
  destruct (capital_ranking n Fn) as [l [rest [R [_ [_ [P _]]]]]].
  rewrite R. cbn [bbind].
  assert (A3 : all_ok (fun x => (_ <- slice_pad (c_razao_social (snd x)) ;;
                                 format_capital (c_capital_social (snd x)))%result) l
               = Ok tt).
  { apply all_ok_forall, Forall_forall. intros x I.
    assert (Ix : In x (companies n)).
    { eapply Permutation_in; [exact P|]. apply in_or_app. now left. }
    rewrite Forall_forall in Fc. destruct (Fc x Ix) as [Rz C].
    destruct (c_razao_social (snd x)); try discriminate. cbn [slice_pad rbind].
    rewrite (format_capital_printable _ C). eauto. }
  rewrite A3. cbn [bbind]. eauto.
Qed.

(** A network with a string and a number as capitals, and one with
    a NaN among the capitals. *)
Lemma C4_counterexample :
  rank_companies_by_capital text_and_number = Raise TypeError /\
  analyze_network text_and_number = Raise TypeError /\
  rank_companies_by_capital number_and_nan = Unspecified.
Proof. repeat split. Qed.



(** ** The build: integrity, first occurrences, counts, partners *)

(** C9: in every state a build goes through, every connection has
    both its company and its partner among the keys of the maps;
    every write either leaves the connection list alone or appends one
    connection whose two keys were in the maps just before; and so the
    returned network has the property. *)
Theorem C9_referential_integrity (post : collaborator) (q : string) (d : Z) :
  Forall (fun st => ref_ok (net st) = true) (build_trace post q d) /\
  (forall l1 s s' l2,
     build_trace post q d = (l1 ++ s :: s' :: l2)%list -> step_ok s s') /\
  (forall n, build post q d = Ok n -> ref_ok n = true).
Proof.
  pose proof (good_build_network post q d) as G.
  split; [|split].
  - unfold build_trace. apply Forall_rev. destruct G as [F _].
    eapply Forall_impl; [|exact F]. intros st [R _]. exact R.
  - intros l1 s s' l2 E. eapply trace_neighbours; eauto.
  - intros n B. rewrite (build_network_returns post q d B).
    now destruct (good_cur G).
Qed.

Lemma C9_referential_integrity_witness :
  ref_ok nameless_network = true.
Proof.
  destruct (C9_referential_integrity (Scenario.answer [Scenario.nameless]) "acme" 2)
    as [_ [_ H]].
  apply H. reflexivity.
Defined.

Lemma processed_after (l : list json) (w w1 : world) (r0 : json) (k : key) :
  for_each l process_company w = (Ok tt, w1) ->
  In r0 l -> record_key r0 = Ok k ->
  set_mem k (processed_cnpjs (cur w1)) = true.
Proof.
  revert w. induction l as [|r l IH]; intros w; simpl; [tauto|].
  unfold bind. destruct (process_company r w) as [[[]|x] w'] eqn:E; [|discriminate].
  intros F [->|I] K; [|eauto].
  assert (S : set_mem k (processed_cnpjs (cur w')) = true).
  { destruct (set_mem k (processed_cnpjs (cur w))) eqn:S.
    - rewrite (process_company_skip r0 w K S) in E. inversion E. now subst.
    - assert (O : fst (process_company r0 w) = Ok tt) by now rewrite E.
      apply process_company_ok in O. destruct O as [k' [K' [O|[u P]]]].
      + congruence.
      + destruct (record_plan_key r0 P) as [Ku _].
        assert (k = u_key u) by congruence. subst k.
        rewrite (process_company_plan r0 w P S) in E. inversion E. subst w'.
        rewrite apply_unit_cur, unit_state_processed, set_mem_add, key_eqb_refl.
        reflexivity. }
  assert (O : fst (for_each l process_company w') = Ok tt) by now rewrite F.
  apply for_each_companies_ok in O.
  rewrite (for_each_companies_run l w' O) in F. inversion F.
  rewrite apply_plan_cur. now apply plan_state_processed_mono.
Qed.

(** A record whose identifier was met earlier in the list can be
    removed from the list: the loop does the same with and without
    it. *)
Lemma for_each_skip_dup (l1 : list json) (dup : json) (rest : list json) (r0 : json)
    (k : key) (w : world) :
  In r0 l1 -> record_key r0 = Ok k -> record_key dup = Ok k ->
  for_each (l1 ++ dup :: rest) process_company w =
  for_each (l1 ++ rest) process_company w.
Proof.
  intros I K0 K. rewrite !for_each_app.
  destruct (for_each l1 process_company w) as [[[]|x] w1] eqn:E; [|reflexivity].
  simpl. unfold bind.
  rewrite (process_company_skip dup w1 K); [reflexivity|].
  eapply processed_after; eauto.
Qed.

Lemma run_hits_skip_dup (l1 : list json) (dup : json) (rest : list json) (r0 : json)
    (k : key) :
  In r0 l1 -> record_key r0 = Ok k -> record_key dup = Ok k ->
  run_hits (l1 ++ dup :: rest) = run_hits (l1 ++ rest).
Proof.
  intros I K0 K. unfold run_hits, bind.
  now rewrite (for_each_skip_dup l1 dup rest r0 init_world I K0 K).
Qed.

(** The unit of the first record with key [k] in a completed build. *)
Lemma built_first (hits pre : list json) (r : json) (rest : list json) (k : key) :
  hits_ok [] hits = true -> hits = (pre ++ r :: rest)%list ->
  record_key r = Ok k -> (forall r', In r' pre -> record_key r' <> Ok k) ->
  exists u, record_plan r = Ok u /\ u_key u = k /\
    dict_get k (companies (built hits)) = Some (u_company u) /\
    filter (conn_of_company k) (connections (built hits)) = map conn_of (u_entries u).
Proof.
  intros H -> K N.
  destruct (plan_first pre r rest [] H K eq_refl N) as [u [us1 [us2 [P [E [Q [A B]]]]]]].
  exists u. split; [exact P|]. split; [exact E|]. subst k. split.
  - rewrite built_companies, Q. now apply dict_get_items_first.
  - rewrite built_connections. unfold edge_entries, plan_entries.
    rewrite Q, flat_map_app. simpl. rewrite !map_app, !filter_app.
    fold (plan_entries us1). fold (plan_entries us2).
    rewrite (@filter_plan_other (u_key u) (pre ++ r :: rest) [] us1),
            (@filter_plan_other (u_key u) (pre ++ r :: rest) [] us2); auto.
    + rewrite (@filter_unit_entries (u_key u) r u P), key_eqb_refl, app_nil_r. reflexivity.
    + intros u' I. rewrite Q. apply in_or_app. right. now right.
    + intros u' I. rewrite Q. apply in_or_app. now left.
Qed.

(** C1: a record whose identifier occurred earlier in the results
    can be taken out of them without changing what the build returns
    or any state it goes through, whatever the record holds.  In the
    network of a completed build every identifier is the key of one
    company entry, and the entry of an identifier holds the fields
    read from the first record that carries it. *)
Theorem C1_first_occurrence_wins (post : collaborator) (q : string) (d : Z)
    (hits : list json) :
  search_companies post q 10 = Ok (JArr hits) ->
  (forall pre r0 mid dup rest k post' q' d',
     hits = (pre ++ r0 :: mid ++ dup :: rest)%list ->
     record_key r0 = Ok k -> record_key dup = Ok k ->
     search_companies post' q' 10 = Ok (JArr (pre ++ r0 :: mid ++ rest)) ->
     build post' q' d' = build post q d /\
     build_trace post' q' d' = build_trace post q d) /\
  (forall n,
     build post q d = Ok n ->
     NoDup (map fst (companies n)) /\
     (forall pre r rest k,
        hits = (pre ++ r :: rest)%list -> record_key r = Ok k ->
        (forall r', In r' pre -> record_key r' <> Ok k) ->
        exists cnpj e, read_id r = Ok (cnpj, k) /\ read_company cnpj r = Ok e /\
                       dict_get k (companies n) = Some e)).
Proof.
  intros S. split.
  - intros pre r0 mid dup rest k post' q' d' E K0 K S'.
    assert (R : run_hits hits = run_hits (pre ++ r0 :: mid ++ rest)).
    { rewrite E.
      replace (pre ++ r0 :: mid ++ dup :: rest)%list
        with ((pre ++ r0 :: mid) ++ dup :: rest)%list
        by (rewrite <- app_assoc; reflexivity).
      replace (pre ++ r0 :: mid ++ rest)%list
        with ((pre ++ r0 :: mid) ++ rest)%list
        by (rewrite <- app_assoc; reflexivity).
      apply run_hits_skip_dup with (r0 := r0) (k := k); auto.
      apply in_or_app. right. now left. }
    unfold build, build_trace.
    rewrite (build_network_run post' q' d' S' (hits := pre ++ r0 :: mid ++ rest) eq_refl).
    rewrite (build_network_run post q d S (hits := hits) eq_refl).
    rewrite <- R. auto.
  - intros n B. apply (build_ok post q d n S) in B.
    destruct B as [H ->]. split; [apply built_keys_nodup|].
    intros pre r rest k E K N.
    destruct (built_first pre r rest H E K N) as [u [P [Ku [G _]]]].
    destruct (record_plan_key r P) as [_ I].
    destruct (record_plan_wf r P) as [_ [C _]].
    exists (u_cnpj u), (u_company u). subst k. auto.
Qed.

Lemma C1_first_occurrence_wins_witness :
  (build (Scenario.answer [Scenario.first_a]) "acme" 2 =
     build (Scenario.answer [Scenario.first_a; Scenario.second_a]) "acme" 2 /\
   build_trace (Scenario.answer [Scenario.first_a]) "acme" 2 =
     build_trace (Scenario.answer [Scenario.first_a; Scenario.second_a]) "acme" 2) /\
  exists cnpj e,
    read_id Scenario.first_a = Ok (cnpj, KStr "A") /\
    read_company cnpj Scenario.first_a = Ok e /\
    dict_get (KStr "A") (companies Scenario.first_a_network) = Some e.
Proof.
  destruct (C1_first_occurrence_wins
              (Scenario.answer [Scenario.first_a; Scenario.second_a]) "acme" 2
              (hits := [Scenario.first_a; Scenario.second_a]) eq_refl) as [D H].
  split.
  - apply (D [] Scenario.first_a [] Scenario.second_a [] (KStr "A")
             (Scenario.answer [Scenario.first_a]) "acme" 2);
      reflexivity.
  - destruct (H Scenario.first_a_network eq_refl) as [_ F].
    apply (F [] Scenario.first_a [Scenario.second_a] (KStr "A") eq_refl eq_refl).
    intros r' [].
Defined.

Lemma process_socio_without_id (cnpj socio : json) (cpf : json) (w : world) :
  Py.get socio "cpf" JNull = Ok cpf -> Py.truthy cpf = false ->
  process_socio cnpj socio w = (Ok tt, w).
Proof.
  intros G T. rewrite process_socio_run. unfold read_socio.
  rewrite G. simpl. now rewrite T.
Qed.

(** C2: for the record that introduces the identifier [k] in a
    completed build, the stored [socios_count] is the length of the
    record's ownership list, the connections of [k] are as many as the
    entries of that list that carry a person identifier, hence at most
    [socios_count]; and an entry whose [cpf] is absent or empty leaves
    the state as it is: no partner, no connection. *)
Theorem C2_edge_count (post : collaborator) (q : string) (d : Z)
    (hits : list json) (n : network) (pre : list json) (r : json) (rest : list json)
    (k : key) :
  search_companies post q 10 = Ok (JArr hits) ->
  build post q d = Ok n ->
  hits = (pre ++ r :: rest)%list -> record_key r = Ok k ->
  (forall r', In r' pre -> record_key r' <> Ok k) ->
  (exists e l,
     dict_get k (companies n) = Some e /\
     read_socios_list r = Ok l /\
     c_socios_count e = List.length l /\
     List.length (filter (conn_of_company k) (connections n)) =
       List.length (filter has_person_id l) /\
     (List.length (filter (conn_of_company k) (connections n)) <= c_socios_count e)%nat) /\
  (forall cnpj socio cpf w,
     Py.get socio "cpf" JNull = Ok cpf -> Py.truthy cpf = false ->
     process_socio cnpj socio w = (Ok tt, w)).
Proof.
  intros S B E K N. apply (build_ok post q d n S) in B. destruct B as [H ->].
  split; [|intros; eapply process_socio_without_id; eauto].
  destruct (built_first pre r rest H E K N) as [u [P [Ku [G F]]]].
  destruct (record_plan_wf r P) as [_ [_ [L [C [_ Le]]]]].
  exists (u_company u), (u_socios u).
  rewrite F, length_map, Le, C.
  repeat split; auto. apply filter_length_le.
Qed.

Lemma C2_edge_count_witness :
  exists e l,
    dict_get (KStr "A") (companies Scenario.acme_network) = Some e /\
    read_socios_list Scenario.acme = Ok l /\
    c_socios_count e = List.length l /\
    List.length (filter (conn_of_company (KStr "A")) (connections Scenario.acme_network)) =
      List.length (filter has_person_id l) /\
    (List.length (filter (conn_of_company (KStr "A")) (connections Scenario.acme_network))
     <= c_socios_count e)%nat.
Proof.
  apply (@C2_edge_count (Scenario.answer [Scenario.acme]) "acme" 2
           [Scenario.acme] Scenario.acme_network [] Scenario.acme [] (KStr "A")
           eq_refl eq_refl eq_refl eq_refl).
  intros r' [].
Defined.

(** C3: in a completed build the connection list is the log of the
    entries met, in order.  A partner [k] of the network has its
    identifier and its name from the first entry that refers to [k],
    and its company list is the list of the companies of the
    connections that refer to [k], one per connection, in order.  In
    every state of the build in which [k] is present it has that same
    identifier and name. *)
Theorem C3_person_merge (post : collaborator) (q : string) (d : Z)
    (hits : list json) (n : network) (k : key) (p : socio_entry) :
  search_companies post q 10 = Ok (JArr hits) ->
  build post q d = Ok n ->
  dict_get k (socios n) = Some p ->
  connections n = map conn_of (edge_entries hits) /\
  filter (conn_of_socio k) (connections n) = map conn_of (entries_of_socio k hits) /\
  (exists e es, entries_of_socio k hits = e :: es /\
                s_cpf p = en_cpf e /\ s_nome p = en_nome e) /\
  s_companies p = map k_cnpj (filter (conn_of_socio k) (connections n)) /\
  List.length (s_companies p) = List.length (filter (conn_of_socio k) (connections n)) /\
  (forall st p', In st (build_trace post q d) ->
                 dict_get k (socios (net st)) = Some p' ->
                 s_cpf p' = s_cpf p /\ s_nome p' = s_nome p).
Proof.
  intros S B G. pose proof B as B'. apply (build_ok post q d n S) in B'.
  destruct B' as [H E].
  assert (C : connections n = map conn_of (edge_entries hits))
    by (subst n; apply built_connections).
  assert (F : filter (conn_of_socio k) (connections n) =
              map conn_of (entries_of_socio k hits)).
  { rewrite C. apply filter_conn_of_socio. apply plan_entries_wf. }
  assert (P : dict_get k (socios n) = merge None (entries_of_socio k hits)).
  { subst n. rewrite built_socios, fold_upsert_get. reflexivity. }
  rewrite G in P.
  destruct (entries_of_socio k hits) as [|e es] eqn:M; [discriminate|].
  rewrite merge_none in P. inversion P as [Hp]. clear P.
  split; [exact C|]. split; [exact F|]. split; [exists e, es; auto|].
  rewrite F. simpl. rewrite !map_map. simpl.
  split; [reflexivity|]. split; [now rewrite !length_map|].
  intros st p' I G'. unfold build_trace in I. apply in_rev in I.
  pose proof (trace_extends_final (good_build_network post q d) I) as [_ X].
  destruct (X _ _ G') as [p'' [G'' [E1 E2]]].
  rewrite <- (build_network_returns post q d B) in G''.
  rewrite G in G''. inversion G''. subst p''. subst p. simpl in *. auto.
Qed.

Lemma C3_person_merge_witness :
  s_companies Scenario.jo = [JStr "A"; JStr "A"] /\
  List.length (s_companies Scenario.jo) =
    List.length (filter (conn_of_socio (KStr "P1")) (connections Scenario.acme_network)).
Proof.
  destruct (@C3_person_merge (Scenario.answer [Scenario.acme]) "acme" 2
              [Scenario.acme] Scenario.acme_network (KStr "P1") Scenario.jo
              eq_refl eq_refl eq_refl)
    as [_ [_ [_ [H [L _]]]]].
  split; [exact H|exact L].
Defined.

(** ** Records with optional fields *)

Lemma get_field (m : list (string * json)) (k : string) (dflt : json) :
  Py.get (JObj m) k dflt = Ok (field m k dflt).
Proof. unfold field. simpl. now destruct (Py.lookup k m). Qed.

Lemma read_socio_ok (cnpj socio : json) :
  socio_ok socio = true -> exists o, read_socio cnpj socio = Ok o.
Proof.
  destruct socio as [| | | | | |sm]; simpl; try discriminate.
  unfold read_socio. rewrite !get_field. simpl.
  destruct (Py.truthy (field sm "cpf" JNull)); simpl; [|eauto].
  unfold hashable. destruct (py_key (field sm "cpf" JNull)); simpl; [eauto|discriminate].
Qed.

Lemma scan_socios_ok (cnpj : json) (l : list json) :
  forallb socio_ok l = true -> snd (scan_socios cnpj l) = Ok tt.
Proof.
  induction l as [|socio l IH]; simpl; [reflexivity|].
  intros H. apply andb_true_iff in H. destruct H as [H1 H2].
  destruct (read_socio_ok cnpj socio H1) as [[e|] ->]; simpl; auto.
Qed.

Lemma read_company_defaults (cnpj razao : json) (m : list (string * json)) :
  Py.lookup "razao_social" m = Some razao ->
  (exists n, Py.len (field m "socios" (JArr [])) = Ok n) ->
  match Py.lookup "socios" m with Some (JArr _) | None => True | _ => False end ->
  read_company cnpj (JObj m) = Ok (entry_with_defaults cnpj razao m).
Proof.
  intros R [n L] A. unfold read_company. rewrite !get_field. simpl.
  rewrite R. simpl. unfold entry_with_defaults, socios_length.
  unfold field in *. destruct (Py.lookup "socios" m) as [[| | | | |l|]|]; simpl; tauto.
Qed.

Lemma record_ok_plan (r : json) :
  record_ok r = true ->
  exists u, record_plan r = Ok u /\
    forall m cnpj razao,
      r = JObj m -> Py.lookup "cnpj" m = Some cnpj ->
      Py.lookup "razao_social" m = Some razao ->
      u_company u = entry_with_defaults cnpj razao m.
Proof.
  destruct r as [| | | | | |m]; simpl; try discriminate.
  destruct (Py.lookup "cnpj" m) as [cnpj|] eqn:C; [|discriminate].
  destruct (Py.lookup "razao_social" m) as [razao|] eqn:R; [|discriminate].
  intros H. apply andb_true_iff in H. destruct H as [Hh Hs].
  unfold hashable in Hh. destruct (py_key cnpj) as [k|x] eqn:K; [|discriminate].
  assert (RC : read_company cnpj (JObj m) = Ok (entry_with_defaults cnpj razao m)).
  { apply read_company_defaults; [exact R| |].
    - unfold field. destruct (Py.lookup "socios" m) as [[| | | | |l|]|]; simpl; eauto;
        discriminate.
    - destruct (Py.lookup "socios" m) as [[| | | | |l|]|]; simpl; auto; discriminate. }
  unfold record_plan, read_id. simpl. rewrite C. simpl. rewrite K. simpl.
  rewrite RC. simpl. unfold read_socios_list. rewrite get_field. unfold field.
  destruct (Py.lookup "socios" m) as [[| | | | |l|]|]; simpl; try discriminate.
  - rewrite (scan_socios_ok cnpj l Hs). simpl. eexists. split; [reflexivity|].
    simpl. intros m' c' r' E. inversion E. subst m'. congruence.
  - eexists. split; [reflexivity|].
    simpl. intros m' c' r' E. inversion E. subst m'. congruence.
Qed.

Lemma hits_ok_records (hits : list json) (seen : list key) :
  forallb record_ok hits = true -> hits_ok seen hits = true.
Proof.
  revert seen. induction hits as [|r hits IH]; intros seen; simpl; [reflexivity|].
  intros H. apply andb_true_iff in H. destruct H as [H1 H2].
  destruct (record_ok_plan r H1) as [u [P _]].
  destruct (record_plan_key r P) as [K _]. rewrite K, P.
  destruct (set_mem (u_key u) seen); auto.
Qed.

Lemma plan_covers (hits : list json) (seen : list key) (r : json) :
  hits_ok seen hits = true -> In r hits ->
  exists k, record_key r = Ok k /\
            (set_mem k seen = true \/ In k (map u_key (plan_from seen hits))).
Proof.
  revert seen. induction hits as [|r0 hits IH]; intros seen; simpl; [tauto|].
  destruct (record_key r0) as [k0|x] eqn:K0; [|discriminate].
  destruct (set_mem k0 seen) eqn:S0.
  - intros H [->|I]; [eauto|]. apply IH; auto.
  - destruct (record_plan r0) as [u0|x] eqn:P0; [|discriminate].
    destruct (record_plan_key r0 P0) as [K0' _].
    assert (k0 = u_key u0) by congruence. subst k0.
    intros H [->|I].
    + exists (u_key u0). split; [assumption|]. right. now left.
    + destruct (IH _ H I) as [k [K [S|J]]]; exists k; (split; [assumption|]).
      * rewrite set_mem_add in S. apply orb_true_iff in S. destruct S as [S|S]; auto.
        apply key_eqb_eq in S. subst. right. now left.
      * right. now right.
Qed.

Lemma dict_mem_items (k : key) (us : list unit_plan) :
  In k (map u_key us) -> dict_mem k (map unit_item us) = true.
Proof.
  intros I. unfold dict_mem.
  destruct (dict_get k (map unit_item us)) eqn:G; [reflexivity|].
  apply dict_get_none in G. rewrite map_map in G. simpl in G. contradiction.
Qed.




(** * Further properties of the script *)

(** ** The lookups and the collaborator *)

(** X1: [find_companies_by_cpf] returns the [hits] of a successful
    response as they are, the empty list when the decoded object has
    no [hits], and the empty list, without decoding the body, for
    any other status; a successful response whose body does not
    decode, or decodes to something that is not an object, raises. *)
Theorem find_companies_by_cpf_behaviour (post : collaborator) (cpf : string) (limit : Z)
    (resp : response) :
  post (JObj [("q", JStr cpf); ("limit", JNum limit);
              ("attributesToSearchOn", JArr [JStr "socios_cpfs"])]) = Ok resp ->
  (status_code resp <> 200 -> find_companies_by_cpf post cpf limit = Ok (JArr [])) /\
  (forall body, status_code resp = 200 -> json_body resp = Ok (JObj body) ->
     find_companies_by_cpf post cpf limit = Ok (field body "hits" (JArr []))) /\
  (forall e, status_code resp = 200 -> json_body resp = Raise e ->
     find_companies_by_cpf post cpf limit = Raise e) /\
  (forall v, status_code resp = 200 -> json_body resp = Ok v ->
     (forall body, v <> JObj body) ->
     find_companies_by_cpf post cpf limit = Raise AttributeError).
Proof.
  intros P. unfold find_companies_by_cpf. rewrite P. simpl. repeat split.
  - intros S. apply Z.eqb_neq in S. now rewrite S.
  - intros body S B. rewrite S, B. simpl. unfold field.
    now destruct (Py.lookup "hits" body).
  - intros e S B. now rewrite S, B.
  - intros v S B N. rewrite S, B. simpl.
    destruct v; try reflexivity. exfalso. now apply (N m).
Qed.

Lemma find_companies_by_cpf_behaviour_witness :
  find_companies_by_cpf (Scenario.answer [Scenario.acme]) "P1" 50 = Ok (JArr [Scenario.acme]) /\
  find_companies_by_cpf Replies.unavailable "P1" 50 = Ok (JArr []) /\
  find_companies_by_cpf Replies.garbled "P1" 50 = Raise JSONDecodeError.
Proof.
  split; [|split].
  - destruct (@find_companies_by_cpf_behaviour (Scenario.answer [Scenario.acme]) "P1" 50
                {| status_code := 200;
                   json_body := Ok (JObj [("hits", JArr [Scenario.acme])]) |} eq_refl)
      as [_ [H _]].
    apply (H [("hits", JArr [Scenario.acme])]); reflexivity.
  - destruct (@find_companies_by_cpf_behaviour Replies.unavailable "P1" 50
                {| status_code := 503; json_body := Raise JSONDecodeError |} eq_refl)
      as [H _].
    apply H. discriminate.
  - destruct (@find_companies_by_cpf_behaviour Replies.garbled "P1" 50
                {| status_code := 200; json_body := Raise JSONDecodeError |} eq_refl)
      as [_ [_ [H _]]].
    apply H; reflexivity.
Defined.

(** X2: nothing catches a failure of the request itself: when the
    collaborator cannot be reached, the three lookups raise the
    exception of the request, the build raises it without writing any
    state, and the script ends with it, exporting nothing. *)
Theorem unreachable_collaborator_propagates (post : collaborator) (e : exn)
    (q : string) (limit d : Z) (arg : string) (args : list string) :
  (forall payload, post payload = Raise e) ->
  search_companies post q limit = Raise e /\
  get_company_by_cnpj post q = Raise e /\
  find_companies_by_cpf post q limit = Raise e /\
  build post q d = Raise e /\
  build_trace post q d = [init_state] /\
  main post ("script" :: arg :: args) = Uncaught e.
Proof.
  intros U.
  assert (S : forall q l, search_companies post q l = Raise e).
  { intros q0 l. unfold search_companies. now rewrite U. }
  assert (B : forall q d, build_network post q d init_world = (Raise e, init_world)).
  { intros q0 d0. unfold build_network, bind, lift. now rewrite S. }
  repeat split.
  - apply S.
  - unfold get_company_by_cnpj. now rewrite U.
  - unfold find_companies_by_cpf. now rewrite U.
  - unfold build. now rewrite B.
  - unfold build_trace. now rewrite B.
  - unfold main, build. simpl List.length. cbn [Nat.ltb Nat.leb]. cbv zeta.
    now rewrite B.
Qed.

Lemma unreachable_collaborator_propagates_witness :
  build (unreachable ConnectionError) "acme" 2 = Raise ConnectionError /\
  main (unreachable ConnectionError) ["script"; "acme"] = Uncaught ConnectionError.
Proof.
  destruct (@unreachable_collaborator_propagates (unreachable ConnectionError)
              ConnectionError "acme" 10 2 "acme" [] (fun _ => eq_refl))
    as [_ [_ [_ [B [_ M]]]]].
  split; [exact B|exact M].
Defined.

(** ** Records the build cannot process *)

Lemma for_each_first_failure (pre : list json) (r : json) (rest : list json)
    (w w1 w2 : world) (e : exn) :
  for_each pre process_company w = (Ok tt, w1) ->
  process_company r w1 = (Raise e, w2) ->
  for_each (pre ++ r :: rest) process_company w = (Raise e, w2).
Proof.
  intros P F. rewrite for_each_app, P. simpl. unfold bind. now rewrite F.
Qed.

Lemma build_first_failure (post : collaborator) (q : string) (d : Z)
    (pre : list json) (r : json) (rest : list json) (e : exn) :
  search_companies post q 10 = Ok (JArr (pre ++ r :: rest)) ->
  forallb record_ok pre = true ->
  (exists w2,
     process_company r (apply_plan (plan_from [] pre) init_world) = (Raise e, w2)) ->
  build post q d = Raise e.
Proof.
  intros S W F. unfold build.
  rewrite (build_network_run post q d S (hits := pre ++ r :: rest) eq_refl).
  unfold run_hits, bind.
  pose proof (for_each_companies_run pre init_world (hits_ok_records pre [] W)) as P.
  simpl in P. destruct F as [w2 F2].
  rewrite (@for_each_first_failure pre r rest init_world _ w2 e P F2). reflexivity.
Qed.

Lemma process_company_no_id (r : json) (e : exn) (w : world) :
  read_id r = Raise e -> process_company r w = (Raise e, w).
Proof. intros H. rewrite process_company_run. now rewrite H. Qed.

(** X3: a record without identifier stops the build.  After records
    that the build accepts, a record that has no [cnpj] raises
    [KeyError], a record that is not an object raises [TypeError],
    and so does a record whose [cnpj] is a list or an object; whatever
    follows is not looked at, and no network is returned. *)
Theorem build_record_without_identifier (post : collaborator) (q : string) (d : Z)
    (pre : list json) (r : json) (rest : list json) :
  search_companies post q 10 = Ok (JArr (pre ++ r :: rest)) ->
  forallb record_ok pre = true ->
  (forall m, r = JObj m -> Py.lookup "cnpj" m = None -> build post q d = Raise KeyError) /\
  ((forall m, r <> JObj m) -> build post q d = Raise TypeError) /\
  (forall m cnpj, r = JObj m -> Py.lookup "cnpj" m = Some cnpj -> hashable cnpj = false ->
     build post q d = Raise TypeError).
Proof.
  intros S W.
  assert (F : forall e, read_id r = Raise e -> build post q d = Raise e).
  { intros e R. apply (build_first_failure post q d pre r rest S W).
    eexists. now apply process_company_no_id. }
  repeat split.
  - intros m -> C. apply F. unfold read_id. simpl. now rewrite C.
  - intros N. apply F. destruct r; try reflexivity. exfalso. now apply (N m).
  - intros m cnpj -> C H. apply F. unfold read_id. simpl. rewrite C. simpl.
    unfold hashable in H. destruct cnpj; simpl in *; try discriminate; reflexivity.
Qed.

Lemma build_record_without_identifier_witness :
  build (Scenario.answer [Scenario.acme; JObj [("razao_social", JStr "Bolt")]]) "acme" 2
    = Raise KeyError /\
  build (Scenario.answer [Scenario.acme; JStr "Bolt"]) "acme" 2 = Raise TypeError.
Proof.
  split.
  - destruct (@build_record_without_identifier
                (Scenario.answer [Scenario.acme; JObj [("razao_social", JStr "Bolt")]])
                "acme" 2 [Scenario.acme] (JObj [("razao_social", JStr "Bolt")]) []
                eq_refl eq_refl) as [H _].
    apply (H [("razao_social", JStr "Bolt")]); reflexivity.
  - destruct (@build_record_without_identifier
                (Scenario.answer [Scenario.acme; JStr "Bolt"])
                "acme" 2 [Scenario.acme] (JStr "Bolt") [] eq_refl eq_refl) as [_ [H _]].
    apply H. discriminate.
Defined.

(** X4: the [hits] of the response are not checked to be a list.
    When the seed lookup returns [None], a number or a boolean, the
    build raises [TypeError] at [len(initial_companies)] before it
    writes anything. *)
Theorem build_hits_without_length (post : collaborator) (q : string) (d : Z) (v : json) :
  search_companies post q 10 = Ok v ->
  Py.len v = Raise TypeError ->
  build post q d = Raise TypeError /\ build_trace post q d = [init_state].
Proof.
  intros S L.
  assert (B : build_network post q d init_world = (Raise TypeError, init_world)).
  { unfold build_network, bind, lift. now rewrite S, L. }
  unfold build, build_trace. now rewrite B.
Qed.

Lemma build_hits_without_length_witness :
  build (fun _ => Ok {| status_code := 200;
                        json_body := Ok (JObj [("hits", JNull)]) |}) "acme" 2
    = Raise TypeError.
Proof.
  apply (@build_hits_without_length
           (fun _ => Ok {| status_code := 200; json_body := Ok (JObj [("hits", JNull)]) |})
           "acme" 2 JNull eq_refl eq_refl).
Defined.

(** X11: the build consults the collaborator through the seed request
    alone, with the limit 10, and its depth argument plays no part:
    two collaborators that answer that request alike give the same
    result and the same states, at any two depths. *)
Theorem build_single_request (post post' : collaborator) (q : string) (d d' : Z) :
  post (JObj [("q", JStr q); ("limit", JNum 10)]) =
    post' (JObj [("q", JStr q); ("limit", JNum 10)]) ->
  build post q d = build post' q d' /\ build_trace post q d = build_trace post' q d'.
Proof.
  intros E.
  assert (S : search_companies post q 10 = search_companies post' q 10)
    by (unfold search_companies; now rewrite E).
  unfold build, build_trace, build_network, bind, lift. now rewrite S.
Qed.

Lemma build_single_request_witness :
  build (Scenario.answer []) "acme" 1 = build Replies.nothing "acme" 2.
Proof.
  apply (@build_single_request (Scenario.answer []) Replies.nothing "acme" 1 2 eq_refl).
Defined.

Lemma plan_state_processed_inv (us : list unit_plan) (st : state) (k : key) :
  set_mem k (processed_cnpjs (plan_state us st)) = true ->
  set_mem k (processed_cnpjs st) = true \/ In k (map u_key us).
Proof.
  revert st. induction us as [|u us IH]; intros st; simpl; [auto|].
  intros H. destruct (IH _ H) as [S|I]; [|auto].
  rewrite unit_state_processed, set_mem_add in S.
  apply orb_true_iff in S. destruct S as [S|S]; [|auto].
  apply key_eqb_eq in S. auto.
Qed.

Lemma fresh_after_prefix (pre : list json) (k : key) :
  (forall r', In r' pre -> record_key r' <> Ok k) ->
  set_mem k (processed_cnpjs (cur (apply_plan (plan_from [] pre) init_world))) = false.
Proof.
  intros N. rewrite apply_plan_cur.
  destruct (set_mem k (processed_cnpjs (plan_state (plan_from [] pre) (cur init_world))))
    eqn:S; [|reflexivity].
  apply plan_state_processed_inv in S. destruct S as [S|I]; [discriminate|].
  apply in_map_iff in I. destruct I as [u [E I]].
  destruct (plan_from_in _ _ _ I) as [r [Ir P]].
  destruct (record_plan_key r P) as [K _]. exfalso. apply (N r Ir). congruence.
Qed.

Lemma scan_socios_failure (cnpj : json) (l1 : list json) (s : json) (l2 : list json)
    (e : exn) :
  forallb socio_ok l1 = true -> read_socio cnpj s = Raise e ->
  snd (scan_socios cnpj (l1 ++ s :: l2)) = Raise e.
Proof.
  intros W R. induction l1 as [|a l1 IH]; simpl.
  - now rewrite R.
  - simpl in W. apply andb_true_iff in W. destruct W as [W1 W2].
    destruct (read_socio_ok cnpj a W1) as [[x|] ->]; simpl; auto.
Qed.

(** X5: an ownership entry the inner loop cannot read stops the
    build, when its record is the first with its identifier.  After
    records and entries that are accepted, an entry that is not an
    object raises [AttributeError], and an entry whose [cpf] is a
    non-empty list or object raises [TypeError]; the company was
    already stored, and no network is returned. *)
Theorem build_unreadable_ownership_entry (post : collaborator) (q : string) (d : Z)
    (pre : list json) (m : list (string * json)) (rest : list json)
    (cnpj razao : json) (k : key) (l1 : list json) (s : json) (l2 : list json) :
  search_companies post q 10 = Ok (JArr (pre ++ JObj m :: rest)) ->
  forallb record_ok pre = true ->
  Py.lookup "cnpj" m = Some cnpj -> py_key cnpj = Ok k ->
  (forall r', In r' pre -> record_key r' <> Ok k) ->
  Py.lookup "razao_social" m = Some razao ->
  Py.lookup "socios" m = Some (JArr (l1 ++ s :: l2)) ->
  forallb socio_ok l1 = true ->
  ((forall sm, s <> JObj sm) -> build post q d = Raise AttributeError) /\
  (forall sm, s = JObj sm -> Py.truthy (field sm "cpf" JNull) = true ->
     hashable (field sm "cpf" JNull) = false -> build post q d = Raise TypeError).
Proof.
  intros S W C K N R L W1.
  assert (F : forall e, read_socio cnpj s = Raise e -> build post q d = Raise e).
  { intros e Rs. apply (build_first_failure post q d pre (JObj m) rest S W).
    eexists. rewrite process_company_run. unfold read_id. simpl. rewrite C. simpl.
    rewrite K. simpl. rewrite (fresh_after_prefix pre N).
    rewrite (@read_company_defaults cnpj razao m R).
    - cbv zeta. unfold read_socios_list. rewrite get_field. unfold field. rewrite L.
      simpl. rewrite (scan_socios_failure cnpj l1 s l2 W1 Rs). reflexivity.
    - unfold field. rewrite L. simpl. eauto.
    - now rewrite L. }
  split.
  - intros Ns. apply F. destruct s; try reflexivity. exfalso. now apply (Ns m0).
  - intros sm -> T H. apply F. unfold read_socio. rewrite get_field. simpl.
    rewrite T. simpl. unfold hashable in H.
    destruct (field sm "cpf" JNull); simpl in *; try discriminate; reflexivity.
Qed.

Lemma build_unreadable_ownership_entry_witness :
  build (Scenario.answer
           [JObj [("cnpj", JStr "A"); ("razao_social", JStr "Acme");
                  ("socios", JArr [Scenario.socio "P1" "Jo"; JStr "P2"])]]) "acme" 2
    = Raise AttributeError.
Proof.
  destruct (@build_unreadable_ownership_entry
              (Scenario.answer
                 [JObj [("cnpj", JStr "A"); ("razao_social", JStr "Acme");
                        ("socios", JArr [Scenario.socio "P1" "Jo"; JStr "P2"])]])
              "acme" 2 []
              [("cnpj", JStr "A"); ("razao_social", JStr "Acme");
               ("socios", JArr [Scenario.socio "P1" "Jo"; JStr "P2"])]
              [] (JStr "A") (JStr "Acme") (KStr "A")
              [Scenario.socio "P1" "Jo"] (JStr "P2") []
              eq_refl eq_refl eq_refl eq_refl (fun r' (I : In r' []) => match I with end)
              eq_refl eq_refl eq_refl) as [H _].
  apply H. discriminate.
Defined.

(** ** The network of a completed build *)

Lemma dict_set_Forall {V} (Q : key * V -> Prop) (k : key) (v : V) (d : dict V) :
  Forall Q d -> Q (k, v) -> Forall Q (dict_set k v d).
Proof.
  intros F H. induction F as [|[k' v'] d Hx F IH]; simpl.
  - constructor; [assumption|constructor].
  - destruct (key_eqb k k') eqn:E.
    + apply key_eqb_eq in E. subst. constructor; assumption.
    + constructor; assumption.
Qed.

Lemma dict_set_nodup {V} (k : key) (v : V) (d : dict V) :
  NoDup (map fst d) -> NoDup (map fst (dict_set k v d)).
Proof.
  intros N. destruct (dict_mem k d) eqn:M.
  - now rewrite dict_set_keys.
  - unfold dict_mem in M. destruct (dict_get k d) eqn:G; [discriminate|].
    rewrite (dict_set_fresh k v d G), map_app. simpl.
    apply NoDup_app; [assumption|constructor; [tauto|constructor]|].
    intros a Ia [<-|[]]. now apply dict_get_none in G.
Qed.

(** What every partner entry satisfies when every entry written
    satisfies it and appending a company keeps it. *)
Lemma fold_upsert_Forall (Q : key * socio_entry -> Prop) (R : entry -> Prop)
    (es : list entry) (d : dict socio_entry) :
  (forall e p, R e -> Q (en_key e, p) -> Q (en_key e, append_company (en_cnpj e) p)) ->
  (forall e, R e -> Q (en_key e, append_company (en_cnpj e) (new_socio e))) ->
  Forall R es -> Forall Q d ->
  Forall Q (fold_left (fun d e => upsert e d) es d).
Proof.
  intros A B Fr. revert d. induction Fr as [|e es Re Fr IH]; intros d Fd; simpl; [assumption|].
  apply IH. unfold upsert. apply dict_set_Forall; [assumption|].
  destruct (dict_get (en_key e) d) as [p|] eqn:G; [|auto].
  apply A; [assumption|]. apply dict_get_in in G.
  rewrite Forall_forall in Fd. now apply Fd.
Qed.

Lemma fold_upsert_nodup (es : list entry) (d : dict socio_entry) :
  NoDup (map fst d) -> NoDup (map fst (fold_left (fun d e => upsert e d) es d)).
Proof.
  revert d. induction es as [|e es IH]; intros d N; simpl; [assumption|].
  apply IH. unfold upsert. now apply dict_set_nodup.
Qed.

Lemma read_company_cnpj (cnpj r : json) (e : company_entry) :
  read_company cnpj r = Ok e -> c_cnpj e = cnpj.
Proof.
  unfold read_company.
  destruct (Py.getitem r "razao_social"); simpl; [|discriminate].
  destruct (Py.get r "nome_fantasia" JNull); simpl; [|discriminate].
  destruct (Py.get r "capital_social" (JNum 0)); simpl; [|discriminate].
  destruct (Py.get r "uf" JNull); simpl; [|discriminate].
  destruct (Py.get r "situacao_cadastral" JNull); simpl; [|discriminate].
  destruct (Py.get r "socios" (JArr [])) as [s|x]; simpl; [|discriminate].
  destruct (Py.len s); simpl; [|discriminate].
  intros H. inversion H. reflexivity.
Qed.

(** X6: in the network of a completed build each map is keyed by the
    identifier its entry stores: the [cnpj] of a company entry and the
    [cpf] of a partner entry hash to the key they are filed under, and
    no partner key occurs twice. *)
Theorem build_keys_match_entries (post : collaborator) (q : string) (d : Z)
    (hits : list json) (n : network) :
  search_companies post q 10 = Ok (JArr hits) ->
  build post q d = Ok n ->
  Forall (fun x => py_key (c_cnpj (snd x)) = Ok (fst x)) (companies n) /\
  Forall (fun x => py_key (s_cpf (snd x)) = Ok (fst x)) (socios n) /\
  NoDup (map fst (socios n)).
Proof.
  intros S B. apply (build_ok post q d n S) in B. destruct B as [H ->].
  split; [|split].
  - rewrite built_companies. apply Forall_forall. intros x I.
    apply in_map_iff in I. destruct I as [u [<- I]].
    destruct (plan_from_in _ _ _ I) as [r [_ P]].
    destruct (record_plan_wf r P) as [K [C _]].
    simpl. now rewrite (read_company_cnpj _ _ C).
  - rewrite built_socios.
    apply fold_upsert_Forall
      with (R := fun e => py_key (en_cpf e) = Ok (en_key e)); simpl; auto.
    apply plan_entries_wf.
  - rewrite built_socios. apply fold_upsert_nodup. constructor.
Qed.

Lemma build_keys_match_entries_witness :
  Forall (fun x => py_key (s_cpf (snd x)) = Ok (fst x)) (socios Scenario.acme_network).
Proof.
  destruct (@build_keys_match_entries (Scenario.answer [Scenario.acme]) "acme" 2
              [Scenario.acme] Scenario.acme_network eq_refl eq_refl) as [_ [H _]].
  exact H.
Defined.

Lemma plan_keys_order (hits : list json) (seen : list key) :
  hits_ok seen hits = true ->
  map u_key (plan_from seen hits) = first_occurrences seen (hit_keys hits).
Proof.
  revert seen. induction hits as [|r hits IH]; intros seen; simpl; [reflexivity|].
  destruct (record_key r) as [k|x] eqn:K; [|discriminate]. simpl.
  destruct (set_mem k seen) eqn:S; [apply IH|].
  destruct (record_plan r) as [u|x] eqn:P; [|discriminate].
  destruct (record_plan_key r P) as [K' _].
  assert (k = u_key u) by congruence. subst k.
  intros H. simpl. now rewrite IH.
Qed.

(** X7: the company map of a completed build lists the identifiers
    in the order in which the results first show them. *)
Theorem build_company_order (post : collaborator) (q : string) (d : Z)
    (hits : list json) (n : network) :
  search_companies post q 10 = Ok (JArr hits) ->
  build post q d = Ok n ->
  map fst (companies n) = first_occurrences [] (hit_keys hits).
Proof.
  intros S B. apply (build_ok post q d n S) in B. destruct B as [H ->].
  rewrite built_companies, map_map. simpl. now apply plan_keys_order.
Qed.

Lemma build_company_order_witness :
  map fst (companies Scenario.first_a_network) = [KStr "A"].
Proof.
  apply (@build_company_order (Scenario.answer [Scenario.first_a; Scenario.second_a])
           "acme" 2 [Scenario.first_a; Scenario.second_a] Scenario.first_a_network
           eq_refl eq_refl).
Defined.

Lemma plan_entries_company (hits : list json) (seen : list key) (e : entry) :
  In e (plan_entries (plan_from seen hits)) ->
  has_key (en_cnpj e) (map unit_item (plan_from seen hits)) = true.
Proof.
  intros I. unfold plan_entries in I. apply in_flat_map in I.
  destruct I as [u [Iu Ie]].
  destruct (plan_from_in _ _ _ Iu) as [r [_ P]].
  destruct (record_plan_wf r P) as [K [_ [_ [_ [W _]]]]].
  rewrite Forall_forall in W. destruct (W e Ie) as [-> _].
  unfold has_key. rewrite K. apply dict_mem_items. now apply in_map.
Qed.

(** X8: the network of a completed build has no partner without a
    company.  The company list of every partner is non-empty, each
    identifier in it is a key of the company map, and at least one
    connection refers to the partner. *)
Theorem build_partner_has_company (post : collaborator) (q : string) (d : Z)
    (hits : list json) (n : network) (k : key) (p : socio_entry) :
  search_companies post q 10 = Ok (JArr hits) ->
  build post q d = Ok n ->
  dict_get k (socios n) = Some p ->
  s_companies p <> [] /\
  Forall (fun cnpj => has_key cnpj (companies n) = true) (s_companies p) /\
  exists c, In c (connections n) /\ conn_of_socio k c = true.
Proof.
  intros S B G. apply (build_ok post q d n S) in B. destruct B as [H ->].
  rewrite built_socios, fold_upsert_get in G. simpl in G.
  destruct (filter (entry_of_socio k) (edge_entries hits)) as [|e es] eqn:M;
    [discriminate|].
  rewrite merge_none in G. inversion G as [Hp]. simpl. clear G Hp.
  assert (I : forall e', In e' (e :: es) -> In e' (edge_entries hits)).
  { intros e' Ie. rewrite <- M in Ie. now apply filter_In in Ie. }
  split; [discriminate|]. split.
  - change (en_cnpj e :: map en_cnpj es) with (map en_cnpj (e :: es)).
    apply Forall_forall. intros c Ic. apply in_map_iff in Ic.
    destruct Ic as [e' [<- Ie]]. rewrite built_companies.
    apply plan_entries_company. now apply I.
  - exists (conn_of e). split.
    + rewrite built_connections. apply in_map. apply I. now left.
    + assert (Ie : In e (filter (entry_of_socio k) (edge_entries hits)))
        by (rewrite M; now left).
      apply filter_In in Ie. destruct Ie as [Ie Ek].
      pose proof (plan_entries_wf hits []) as W. rewrite Forall_forall in W.
      unfold conn_of_socio. simpl. now rewrite (W e Ie).
Qed.

Lemma build_partner_has_company_witness :
  s_companies Scenario.jo <> [] /\
  Forall (fun cnpj => has_key cnpj (companies Scenario.acme_network) = true)
    (s_companies Scenario.jo).
Proof.
  destruct (@build_partner_has_company (Scenario.answer [Scenario.acme]) "acme" 2
              [Scenario.acme] Scenario.acme_network (KStr "P1") Scenario.jo
              eq_refl eq_refl eq_refl) as [A [B _]].
  split; [exact A|exact B].
Defined.

Lemma dict_set_length {V} (k : key) (v : V) (d : dict V) :
  (List.length (dict_set k v d) <= S (List.length d))%nat.
Proof.
  induction d as [|[k' v'] d IH]; simpl; [lia|].
  destruct (key_eqb k k'); simpl; lia.
Qed.

Lemma fold_upsert_length (es : list entry) (d : dict socio_entry) :
  (List.length (fold_left (fun d e => upsert e d) es d)
   <= List.length d + List.length es)%nat.
Proof.
  revert d. induction es as [|e es IH]; intros d; simpl; [lia|].
  specialize (IH (upsert e d)). unfold upsert in *.
  pose proof (dict_set_length (en_key e)
                (append_company (en_cnpj e)
                   match dict_get (en_key e) d with
                   | Some p => p
                   | None => new_socio e
                   end) d).
  lia.
Qed.

Lemma plan_entries_length (hits : list json) (seen : list key) (us : list unit_plan) :
  (forall u, In u us -> In u (plan_from seen hits)) ->
  (List.length (plan_entries us)
   <= list_sum (map (fun u => c_socios_count (u_company u)) us))%nat.
Proof.
  induction us as [|u us IH]; simpl; intros I; [lia|].
  rewrite length_app.
  destruct (plan_from_in hits seen u (I u (or_introl eq_refl))) as [r [_ P]].
  destruct (record_plan_wf r P) as [_ [_ [_ [C [_ L]]]]].
  pose proof (filter_length_le has_person_id (u_socios u)).
  assert (List.length (plan_entries us)
          <= list_sum (map (fun u => c_socios_count (u_company u)) us))%nat
    by (apply IH; auto).
  lia.
Qed.

(** X9: in the network of a completed build there are at most as many
    partners as connections, and at most as many connections as the
    stored [socios_count] of the companies add up to. *)
Theorem build_sizes (post : collaborator) (q : string) (d : Z)
    (hits : list json) (n : network) :
  search_companies post q 10 = Ok (JArr hits) ->
  build post q d = Ok n ->
  (List.length (socios n) <= List.length (connections n))%nat /\
  (List.length (connections n)
   <= list_sum (map (fun x => c_socios_count (snd x)) (companies n)))%nat.
Proof.
  intros S B. apply (build_ok post q d n S) in B. destruct B as [H ->].
  rewrite built_socios, built_connections, built_companies, length_map, map_map.
  split.
  - pose proof (fold_upsert_length (edge_entries hits) []) as L. simpl in L. exact L.
  - simpl. unfold edge_entries. apply plan_entries_length with (hits := hits) (seen := []).
    auto.
Qed.

Lemma build_sizes_witness :
  (List.length (socios Scenario.acme_network)
   <= List.length (connections Scenario.acme_network))%nat /\
  (List.length (connections Scenario.acme_network)
   <= list_sum (map (fun x => c_socios_count (snd x)) (companies Scenario.acme_network)))%nat.
Proof.
  apply (@build_sizes (Scenario.answer [Scenario.acme]) "acme" 2
           [Scenario.acme] Scenario.acme_network eq_refl eq_refl).
Defined.

Lemma for_each_all_skipped (l : list json) (w : world) :
  (forall r, In r l ->
     exists k, record_key r = Ok k /\ set_mem k (processed_cnpjs (cur w)) = true) ->
  for_each l process_company w = (Ok tt, w).
Proof.
  induction l as [|r l IH]; intros H; simpl; [reflexivity|].
  unfold bind. destruct (H r (or_introl eq_refl)) as [k [K S]].
  rewrite (process_company_skip r w K S). apply IH. intros r' I. apply H. now right.
Qed.

(** X10: results that only repeat identifiers already met add
    nothing.  When every record appended to the results carries the
    identifier of a record of the results, the build returns the same
    value and goes through the same states as without them, whatever
    else the appended records hold. *)
Theorem build_appended_duplicates (post post' : collaborator) (q q' : string) (d d' : Z)
    (hits extra : list json) :
  search_companies post q 10 = Ok (JArr hits) ->
  search_companies post' q' 10 = Ok (JArr (hits ++ extra)) ->
  (forall r', In r' extra ->
     exists r k, In r hits /\ record_key r = Ok k /\ record_key r' = Ok k) ->
  build post' q' d' = build post q d /\
  build_trace post' q' d' = build_trace post q d.
Proof.
  intros S S' D.
  assert (R : run_hits (hits ++ extra) = run_hits hits).
  { unfold run_hits, bind. rewrite for_each_app.
    destruct (for_each hits process_company init_world) as [[[]|x] w1] eqn:E;
      [|reflexivity].
    rewrite for_each_all_skipped; [reflexivity|].
    intros r' I. destruct (D r' I) as [r [k [Ir [K K']]]].
    exists k. split; [assumption|]. eapply processed_after; eauto. }
  unfold build, build_trace.
  rewrite (build_network_run post' q' d' S' (hits := hits ++ extra) eq_refl).
  rewrite (build_network_run post q d S (hits := hits) eq_refl).
  rewrite R. auto.
Qed.

Lemma build_appended_duplicates_witness :
  build (Scenario.answer [Scenario.acme; Scenario.second_a; Scenario.first_a]) "acme" 2 =
  build (Scenario.answer [Scenario.acme]) "acme" 2.
Proof.
  apply (@build_appended_duplicates (Scenario.answer [Scenario.acme])
           (Scenario.answer [Scenario.acme; Scenario.second_a; Scenario.first_a])
           "acme" "acme" 2 2 [Scenario.acme] [Scenario.second_a; Scenario.first_a]
           eq_refl eq_refl).
  intros r' [<-|[<-|[]]]; exists Scenario.acme, (KStr "A"); repeat split; now left.
Defined.

(** ** The states of a build *)

Lemma chain_prefix (l : list state) (newer : state) :
  chain write_ok (newer :: l) ->
  Forall (fun older => exists added,
            connections (net newer) = (connections (net older) ++ added)%list) l.
Proof.
  revert newer. induction l as [|older l IH]; intros newer C; [constructor|].
  inversion C as [| |? ? ? W C']; subst. destruct W as [St _].
  assert (P : exists added,
             connections (net newer) = (connections (net older) ++ added)%list).
  { destruct St as [E|[c [E _]]]; [exists []; now rewrite app_nil_r|eauto]. }
  constructor; [exact P|].
  eapply Forall_impl; [|apply IH; exact C'].
  intros a [added Ea]. destruct P as [added' Ep].
  exists (added ++ added')%list. now rewrite Ep, Ea, app_assoc.
Qed.

Lemma trace_later (Q : state -> state -> Prop) (w : world)
    (l1 l2 : list state) (s s' : state) :
  (forall newer l, chain write_ok (newer :: l) -> Forall (fun older => Q older newer) l) ->
  good_world w -> rev (history w) = (l1 ++ s :: l2)%list -> In s' l2 -> Q s s'.
Proof.
  intros A [_ C] E I.
  apply in_split in I. destruct I as [l3 [l4 ->]].
  assert (H : history w = (rev l4 ++ s' :: (rev l3 ++ s :: rev l1))%list).
  { rewrite <- (rev_involutive (history w)), E, rev_app_distr. simpl.
    rewrite rev_app_distr. simpl. rewrite <- !app_assoc. reflexivity. }
  rewrite H in C. apply chain_suffix in C. apply A in C.
  rewrite Forall_forall in C. apply C. apply in_or_app. right. now left.
Qed.

(** X12: a build only adds.  Of two states of a build, completed or
    not, the later one stores every company entry of the earlier one
    unchanged and every partner of the earlier one with the same
    identifier and name, and its connection list is the earlier list
    with connections appended. *)
Theorem build_only_adds (post : collaborator) (q : string) (d : Z)
    (l1 l2 : list state) (s s' : state) :
  build_trace post q d = (l1 ++ s :: l2)%list -> In s' l2 ->
  extends s s' /\
  exists added, connections (net s') = (connections (net s) ++ added)%list.
Proof.
  intros E I. pose proof (good_build_network post q d) as G. split.
  - eapply trace_extends; eauto.
  - apply (trace_later (fun older newer => exists added,
             connections (net newer) = (connections (net older) ++ added)%list)
             (w := snd (build_network post q d init_world)) l1 l2 s s'); auto.
    intros newer l. apply chain_prefix.
Qed.

Lemma build_only_adds_witness :
  exists added,
    connections Scenario.acme_network = (connections empty_network ++ added)%list.
Proof.
  destruct (@build_only_adds (Scenario.answer [Scenario.acme]) "acme" 2
              [] (tl (build_trace (Scenario.answer [Scenario.acme]) "acme" 2))
              init_state
              {| net := Scenario.acme_network; processed_cnpjs := [KStr "A"] |}
              eq_refl) as [_ H].
  - vm_compute. do 6 right. now left.
  - exact H.
Defined.

(** ** The rankings *)







(** ** Which networks the analyzer accepts *)

Lemma all_ok_raise {A} (f : A -> result unit) (l : list A) (e : exn) :
  (forall x, In x l -> f x = Ok tt \/ f x = Raise e) ->
  (exists x, In x l /\ f x = Raise e) ->
  all_ok f l = Raise e.
Proof.
  induction l as [|a l IH]; intros H [x [I R]]; simpl; [destruct I|].
  destruct (H a (or_introl eq_refl)) as [O|O]; rewrite O; simpl; [|reflexivity].
  apply IH.
  - intros y Iy. apply H. now right.
  - destruct I as [->|I]; [congruence|eauto].
Qed.

Lemma slice_pad_string (v : json) :
  slice_pad v = if is_string v then Ok tt else Raise TypeError.
Proof. now destruct v. Qed.



(** X16: a name that is not a string stops the analyzer with
    [TypeError].  It is enough that one partner of the first ranking
    has such a name; and when the names of that ranking are strings,
    that one company of the second ranking has such a legal name.
    No ranking is returned. *)
Theorem analyze_name_not_a_string (n : network) :
  ((exists x, In x (rank_socios_by_companies n) /\ is_string (s_nome (snd x)) = false) ->
   analyze_network n = Raise TypeError) /\
  (Forall (fun x => is_string (s_nome (snd x)) = true) (rank_socios_by_companies n) ->
   (exists x, In x (rank_companies_by_socios n) /\
              is_string (c_razao_social (snd x)) = false) ->
   analyze_network n = Raise TypeError).
Proof.
  split.
  - intros [x [I N]]. unfold analyze_network. cbv zeta.
    rewrite (@all_ok_raise _ (fun x => slice_pad (s_nome (snd x)))
               (rank_socios_by_companies n) TypeError); [reflexivity| |].
    + intros y _. rewrite slice_pad_string. destruct (is_string (s_nome (snd y))); auto.
    + exists x. split; [assumption|]. now rewrite slice_pad_string, N.
  - intros F [x [I N]]. unfold analyze_network. cbv zeta.
    assert (A : all_ok (fun x => slice_pad (s_nome (snd x))) (rank_socios_by_companies n)
                = Ok tt).
    { apply all_ok_forall. eapply Forall_impl; [|exact F].
      intros y Hy. simpl in Hy. rewrite slice_pad_string, Hy. eauto. }
    rewrite A. cbn [rbind].
    rewrite (@all_ok_raise _ (fun x => slice_pad (c_razao_social (snd x)))
               (rank_companies_by_socios n) TypeError); [reflexivity| |].
    + intros y _. rewrite slice_pad_string.
      destruct (is_string (c_razao_social (snd y))); auto.
    + exists x. split; [assumption|]. now rewrite slice_pad_string, N.
Qed.

Lemma analyze_name_not_a_string_witness :
  analyze_network nameless_network = Raise TypeError.
Proof.
  destruct (analyze_name_not_a_string nameless_network) as [H _].
  apply H. eexists. split; [now left|reflexivity].
Defined.

(** ** The command line and the exported file *)

Lemma ascii_app (a b : string) :
  list_ascii_of_string (a ++ b) = (list_ascii_of_string a ++ list_ascii_of_string b)%list.
Proof. induction a as [|c a IH]; simpl; [reflexivity|now rewrite IH]. Qed.

Lemma string_length_app (a b : string) :
  String.length (a ++ b) = (String.length a + String.length b)%nat.
Proof. induction a as [|c a IH]; simpl; [reflexivity|now rewrite IH]. Qed.

Lemma replace_spaces_no_space (s : string) :
  ~ In " "%char (list_ascii_of_string (replace_spaces s)).
Proof.
  induction s as [|c s IH]; simpl; [tauto|].
  intros [E|I]; [|tauto].
  destruct (Ascii.eqb c " ") eqn:C; [discriminate|].
  apply Ascii.eqb_neq in C. congruence.
Qed.

Lemma replace_spaces_length (s : string) :
  String.length (replace_spaces s) = String.length s.
Proof. induction s as [|c s IH]; simpl; [reflexivity|now rewrite IH]. Qed.

Lemma replace_spaces_idem (s : string) :
  replace_spaces (replace_spaces s) = replace_spaces s.
Proof.
  induction s as [|c s IH]; simpl; [reflexivity|]. rewrite IH.
  destruct (Ascii.eqb c " ") eqn:C; [reflexivity|]. now rewrite C.
Qed.

Lemma replace_spaces_app (a b : string) :
  replace_spaces (a ++ b) = replace_spaces a ++ replace_spaces b.
Proof. induction a as [|c a IH]; simpl; [reflexivity|now rewrite IH]. Qed.

Lemma replace_spaces_join (ws : list string) :
  replace_spaces (join " " ws) = join "_" (map replace_spaces ws).
Proof.
  induction ws as [|w ws IH]; [reflexivity|].
  destruct ws as [|w' ws]; [reflexivity|].
  change (join " " (w :: w' :: ws)) with (w ++ " " ++ join " " (w' :: ws)).
  change (join "_" (map replace_spaces (w :: w' :: ws)))
    with (replace_spaces w ++ "_" ++ join "_" (map replace_spaces (w' :: ws))).
  now rewrite !replace_spaces_app, IH.
Qed.

(** X19: the name of the exported file has no space in it and is 21
    characters longer than the query; queries that differ only in
    spaces against underscores get the same file. *)
Theorem output_file_shape (query : string) :
  ~ In " "%char (list_ascii_of_string (output_file query)) /\
  String.length (output_file query) = (21 + String.length query)%nat /\
  output_file (replace_spaces query) = output_file query.
Proof.
  unfold output_file. split; [|split].
  - rewrite !ascii_app. intros I.
    apply in_app_or in I. destruct I as [I|I].
    + simpl in I. repeat (destruct I as [I|I]; [discriminate|]). exact I.
    + apply in_app_or in I. destruct I as [I|I].
      * now apply replace_spaces_no_space in I.
      * simpl in I. repeat (destruct I as [I|I]; [discriminate|]). exact I.
  - rewrite !string_length_app, replace_spaces_length. simpl. lia.
  - now rewrite replace_spaces_idem.
Qed.

(** X20: the file name in terms of the command line: the words of
    the query, each with its spaces replaced, joined by underscores
    between the fixed prefix and suffix. *)
Theorem output_file_of_words (words : list string) :
  output_file (join " " words) =
  "company_network_" ++ join "_" (map replace_spaces words) ++ ".json".
Proof. unfold output_file. now rewrite replace_spaces_join. Qed.

(** X18: when the script exports and when it exits.  It exits, with
    status 1 and whatever the collaborator, exactly when the command
    line has no query; it exports exactly when there is a query, the
    build for the joined query at depth 1 completes and the analysis
    of its network completes, and the file then holds that network
    under the name derived from the query. *)
Theorem main_outcome (post : collaborator) (argv : list string) :
  (forall status, main post argv = Exit status <->
                  (List.length argv < 2)%nat /\ status = 1) /\
  (forall f, main post argv = Exported f <->
             (2 <= List.length argv)%nat /\
             build post (join " " (tl argv)) 1 = Ok (file_content f) /\
             (exists a, analyze_network (file_content f) = Ok a) /\
             file_name f = output_file (join " " (tl argv))).
Proof.
  unfold main. destruct (List.length argv <? 2)%nat eqn:L.
  - apply Nat.ltb_lt in L. split.
    + intros status. split; [intros H; inversion H; auto|].
      intros [_ ->]. reflexivity.
    + intros f. split; [discriminate|]. intros [H _]. lia.
  - apply Nat.ltb_ge in L. cbv zeta. split.
    + intros status. split; [|intros [H _]; lia].
      destruct (build post (join " " (tl argv)) 1) as [n|e]; [|discriminate].
      destruct (analyze_network n) as [[a|e]|]; discriminate.
    + intros f. destruct (build post (join " " (tl argv)) 1) as [n|e].
      * destruct (analyze_network n) as [[a|e]|] eqn:A.
        -- split.
           ++ intros H. inversion H. simpl. rewrite A. eauto.
           ++ intros [_ [B [_ N]]]. inversion B. destruct f as [fn fc]. simpl in *.
              now subst.
        -- split; [discriminate|]. intros [_ [B [[a Ha] _]]].
           inversion B. subst. congruence.
        -- split; [discriminate|]. intros [_ [B [[a Ha] _]]].
           inversion B. subst. congruence.
      * split; [discriminate|]. intros [_ [B _]]. discriminate.
Qed.

Lemma main_outcome_witness :
  main Replies.nothing ["script"] = Exit 1 /\
  main (Scenario.answer [Scenario.acme]) ["script"; "acme"; "sa"] =
    Exported {| file_name := "company_network_acme_sa.json";
                file_content := Scenario.acme_network |}.
Proof.
  split.
  - destruct (main_outcome Replies.nothing ["script"]) as [H _].
    apply H. split; [simpl; lia|reflexivity].
  - destruct (main_outcome (Scenario.answer [Scenario.acme]) ["script"; "acme"; "sa"])
      as [_ H].
    apply H. simpl. repeat split; [lia|]. eexists. reflexivity.
Defined.

Lemma scan_socios_in (cnpj : json) (l : list json) (e : entry) :
  In e (fst (scan_socios cnpj l)) ->
  exists s, In s l /\ read_socio cnpj s = Ok (Some e).
Proof.
  induction l as [|s l IH]; simpl; [tauto|].
  destruct (read_socio cnpj s) as [[e0|]|x] eqn:R; simpl.
  - intros [<-|I]; [eauto|]. destruct (IH I) as [s' [I' R']]. eauto.
  - intros I. destruct (IH I) as [s' [I' R']]. eauto.
  - tauto.
Qed.

Lemma record_plan_entries (r : json) (u : unit_plan) :
  record_plan r = Ok u -> u_entries u = fst (scan_socios (u_cnpj u) (u_socios u)).
Proof.
  unfold record_plan.
  destruct (read_id r) as [[cnpj k]|x]; simpl; [|discriminate].
  destruct (read_company cnpj r); simpl; [|discriminate].
  destruct (read_socios_list r) as [l|x]; simpl; [|discriminate].
  destruct (snd (scan_socios cnpj l)); simpl; [|discriminate].
  intros H. inversion H. reflexivity.
Qed.

Lemma presentable_socios (m : list (string * json)) (l : list json) :
  presentable (JObj m) = true -> read_socios_list (JObj m) = Ok l ->
  record_ok (JObj m) = true -> forallb socio_presentable l = true.
Proof.
  unfold read_socios_list. rewrite get_field. unfold field. simpl.
  destruct (Py.lookup "cnpj" m); [|discriminate].
  destruct (Py.lookup "razao_social" m); [|discriminate].
  destruct (Py.lookup "socios" m) as [[| | | | |l'|]|]; simpl;
    intros P L O; inversion L; subst;
    try (apply andb_true_iff in O; destruct O; discriminate).
  - apply andb_true_iff in P. now destruct P.
  - reflexivity.
Qed.

Lemma presentable_entry (cnpj s : json) (e : entry) :
  socio_presentable s = true -> read_socio cnpj s = Ok (Some e) ->
  is_string (en_nome e) = true.
Proof.
  intros P R. destruct (read_socio_some _ _ R) as [_ [H [C N]]].
  destruct s as [| | | | | |sm]; try discriminate.
  rewrite get_field in N. inversion N as [En].
  unfold has_person_id in H. rewrite get_field in H.
  simpl in P. rewrite H in P. exact P.
Qed.

Lemma built_printable (hits : list json) :
  forallb record_ok hits = true -> forallb presentable hits = true ->
  printable (built hits).
Proof.
  intros W P. rewrite forallb_forall in W, P.
  assert (U : forall u, In u (plan_from [] hits) ->
                exists m, In (JObj m) hits /\ record_plan (JObj m) = Ok u).
  { intros u I. destruct (plan_from_in _ _ _ I) as [r [Ir Pr]].
    specialize (W r Ir). destruct r; try discriminate. eauto. }
  split.
  - rewrite built_socios.
    apply fold_upsert_Forall with (R := fun e => is_string (en_nome e) = true); auto.
    apply Forall_forall. intros e I. unfold edge_entries, plan_entries in I.
    apply in_flat_map in I. destruct I as [u [Iu Ie]].
    destruct (U u Iu) as [m [Im Pm]].
    destruct (record_plan_wf _ Pm) as [_ [_ [L _]]].
    rewrite (record_plan_entries _ Pm) in Ie.
    apply scan_socios_in in Ie. destruct Ie as [s [Is Rs]].
    pose proof (presentable_socios m (P _ Im) L (W _ Im)) as Fs.
    rewrite forallb_forall in Fs. eapply presentable_entry; eauto.
  - rewrite built_companies. apply Forall_forall. intros x I.
    apply in_map_iff in I. destruct I as [u [<- Iu]].
    destruct (U u Iu) as [m [Im Pm]].
    destruct (record_ok_plan _ (W _ Im)) as [u' [Pu D]].
    assert (u' = u) by congruence. subst u'.
    pose proof (W _ Im) as O. pose proof (P _ Im) as Q. simpl in O, Q.
    destruct (Py.lookup "cnpj" m) as [cnpj|] eqn:C; [|discriminate].
    destruct (Py.lookup "razao_social" m) as [razao|] eqn:Rz; [|discriminate].
    simpl. rewrite (D m cnpj razao eq_refl C Rz). simpl.
    apply andb_true_iff in Q. destruct Q as [Q _].
    apply andb_true_iff in Q. destruct Q as [Q1 Q2].
    unfold field in Q1 at 1. rewrite Rz in Q1. auto.
Qed.



(** ** The three lookups side by side *)

(** X22: the three lookups differ in the request only.  On equal
    responses the lookup by partner returns what the seed lookup
    returns, exception included, and the lookup by identifier returns
    [None] when that result is empty in Python's sense and its element
    at index 0 otherwise. *)
Theorem lookups_agree (post post' post'' : collaborator) (q cpf cnpj : string)
    (limit limit' : Z) :
  post' (JObj [("q", JStr cpf); ("limit", JNum limit');
               ("attributesToSearchOn", JArr [JStr "socios_cpfs"])]) =
    post (JObj [("q", JStr q); ("limit", JNum limit)]) ->
  post'' (JObj [("filter", JStr ("cnpj = " ++ cnpj)); ("limit", JNum 1)]) =
    post (JObj [("q", JStr q); ("limit", JNum limit)]) ->
  find_companies_by_cpf post' cpf limit' = search_companies post q limit /\
  get_company_by_cnpj post'' cnpj =
    (hits <- search_companies post q limit ;;
     if Py.truthy hits then Py.index0 hits else Ok JNull)%result.
Proof.
  intros E' E''. unfold find_companies_by_cpf, get_company_by_cnpj, search_companies.
  rewrite E', E''.
  destruct (post (JObj [("q", JStr q); ("limit", JNum limit)])) as [resp|e]; simpl;
    [|auto].
  destruct (status_code resp =? 200); simpl; [|auto].
  destruct (json_body resp) as [body|e]; simpl; auto.
Qed.

Lemma lookups_agree_witness :
  find_companies_by_cpf (Scenario.answer [Scenario.acme]) "P1" 50 =
    search_companies (Scenario.answer [Scenario.acme]) "acme" 10 /\
  get_company_by_cnpj (Scenario.answer [Scenario.acme]) "A" =
    (hits <- search_companies (Scenario.answer [Scenario.acme]) "acme" 10 ;;
     if Py.truthy hits then Py.index0 hits else Ok JNull)%result.
Proof.
  apply (@lookups_agree (Scenario.answer [Scenario.acme]) (Scenario.answer [Scenario.acme])
           (Scenario.answer [Scenario.acme]) "acme" "P1" "A" 10 50 eq_refl eq_refl).
Defined.

(** ** The connections of one company *)

Lemma read_socio_connection (cnpj s : json) (e : entry) :
  read_socio cnpj s = Ok (Some e) -> conn_of e = socio_connection cnpj s.
Proof.
  unfold read_socio, socio_connection, conn_of, get_or_none.
  destruct (Py.get s "cpf" JNull) as [cpf|x]; simpl; [|discriminate].
  destruct (Py.truthy cpf); simpl; [|discriminate].
  destruct (py_key cpf) as [k|x]; simpl; [|discriminate].
  destruct (Py.get s "nome" JNull) as [nome|x]; simpl; [|discriminate].
  destruct (Py.get s "qualificacao" JNull) as [a|x]; simpl; [|discriminate].
  destruct (Py.get s "data_entrada" JNull) as [b|x]; simpl; [|discriminate].
  destruct (Py.get s "percentual" JNull) as [c|x]; simpl; [|discriminate].
  intros H. inversion H. reflexivity.
Qed.

Lemma scan_socios_connections (cnpj : json) (l : list json) :
  snd (scan_socios cnpj l) = Ok tt ->
  map conn_of (fst (scan_socios cnpj l)) =
  map (socio_connection cnpj) (filter has_person_id l).
Proof.
  induction l as [|s l IH]; simpl; [reflexivity|].
  destruct (read_socio cnpj s) as [[e|]|x] eqn:R; simpl.
  - intros H. destruct (read_socio_some _ _ R) as [_ [-> _]]. simpl.
    now rewrite (read_socio_connection _ _ R), IH.
  - intros H. now rewrite (read_socio_none _ _ R), IH.
  - discriminate.
Qed.

Lemma record_plan_scan (r : json) (u : unit_plan) :
  record_plan r = Ok u -> snd (scan_socios (u_cnpj u) (u_socios u)) = Ok tt.
Proof.
  unfold record_plan.
  destruct (read_id r) as [[cnpj k]|x]; simpl; [|discriminate].
  destruct (read_company cnpj r); simpl; [|discriminate].
  destruct (read_socios_list r) as [l|x]; simpl; [|discriminate].
  destruct (snd (scan_socios cnpj l)) as [[]|x] eqn:E; simpl; [|discriminate].
  intros H. inversion H. simpl. exact E.
Qed.

(** X23: the connections of a company, in full.  In a completed
    build the connections of the identifier [k] are the connections
    of the ownership entries that carry a person identifier in the
    first record with [k], in the order of that record's list; each
    holds the company identifier, the entry's [cpf], and the entry's
    role, entry date and percentage, [None] where the entry has
    none. *)
Theorem build_company_connections (post : collaborator) (q : string) (d : Z)
    (hits : list json) (n : network) (pre : list json) (r : json) (rest : list json)
    (k : key) :
  search_companies post q 10 = Ok (JArr hits) ->
  build post q d = Ok n ->
  hits = (pre ++ r :: rest)%list -> record_key r = Ok k ->
  (forall r', In r' pre -> record_key r' <> Ok k) ->
  exists cnpj l,
    read_id r = Ok (cnpj, k) /\ read_socios_list r = Ok l /\
    filter (conn_of_company k) (connections n) =
    map (socio_connection cnpj) (filter has_person_id l).
Proof.
  intros S B E K N. apply (build_ok post q d n S) in B. destruct B as [H ->].
  destruct (built_first pre r rest H E K N) as [u [P [Ku [_ F]]]].
  destruct (record_plan_key r P) as [_ I].
  destruct (record_plan_wf r P) as [_ [_ [L _]]].
  exists (u_cnpj u), (u_socios u). subst k.
  split; [exact I|]. split; [exact L|].
  rewrite F, (record_plan_entries r P).
  apply scan_socios_connections. now apply (record_plan_scan r).
Qed.

Lemma build_company_connections_witness :
  exists cnpj l,
    read_id Scenario.acme = Ok (cnpj, KStr "A") /\ read_socios_list Scenario.acme = Ok l /\
    filter (conn_of_company (KStr "A")) (connections Scenario.acme_network) =
    map (socio_connection cnpj) (filter has_person_id l).
Proof.
  apply (@build_company_connections (Scenario.answer [Scenario.acme]) "acme" 2
           [Scenario.acme] Scenario.acme_network [] Scenario.acme [] (KStr "A")
           eq_refl eq_refl eq_refl eq_refl).
  intros r' [].
Defined.
